(** * pkpass: the identity database and the recipient list of a command

    A shallow embedding of [libpkpass/identities.py] (class [IdentityDB]) and
    of the recipient handling of [libpkpass/commands/command.py] (class
    [Command]), with the properties of the trust store and of recipient
    resolution stated and proved over it.

    Python values are embedded as follows.
    - [str] is [string], holding the UTF-8 encoding of the text; only the
      string methods the two modules call are defined ([split], [strip],
      [endswith], [lower], [join]).
    - A dict used as a map ([self.args], [self.iddb]) is a [gmap string _];
      the connect map, which is iterated in insertion order, is an
      association list.
    - An identity, a dict with a fixed set of possible keys, is a record of
      optional fields.
    - A method that mutates [self] returns the new state together with its
      outcome, so that what was written before an exception is visible.
    - The file system, the certificate parser, the crypto module, the
      connectors and the iteration order of a [set] are interfaces. *)

From Stdlib Require Import Ascii String List ZArith Lia Permutation.
From stdpp Require Import base option list gmap strings pretty.

Local Open Scope string_scope.

(** ** Python strings *)

Module PyStr.

(** [str.split(sep)] for a separator of one character.  The result is never
    empty: a string without separator is returned whole. *)
Fixpoint split (sep : ascii) (s : string) : list string :=
  match s with
  | EmptyString => [""]
  | String a rest =>
      match split sep rest with
      | [] => [""]
      | w :: ws => if Ascii.eqb a sep then "" :: w :: ws else String a w :: ws
      end
  end.

(** The whitespace characters of [str.isspace] and [str.strip], by the
    bytes of their UTF-8 encoding:
    - one byte: U+0009-U+000D, U+001C-U+001F and the space U+0020;
    - two bytes, [C2 85] and [C2 A0]: U+0085 and the no-break space U+00A0;
    - three bytes: U+1680 ([E1 9A 80]), U+2000-U+200A ([E2 80 80]-[E2 80 8A]),
      U+2028 and U+2029 ([E2 80 A8], [E2 80 A9]), U+202F ([E2 80 AF]),
      U+205F ([E2 81 9F]) and U+3000 ([E3 80 80]). *)
Definition ws1 (a : ascii) : bool :=
  let n := nat_of_ascii a in
  ((9 <=? n)%nat && (n <=? 13)%nat) || ((28 <=? n)%nat && (n <=? 32)%nat).

Definition ws2 (a b : ascii) : bool :=
  let y := nat_of_ascii b in
  (nat_of_ascii a =? 194)%nat && ((y =? 133)%nat || (y =? 160)%nat).

Definition ws3 (a b c : ascii) : bool :=
  let x := nat_of_ascii a in
  let y := nat_of_ascii b in
  let z := nat_of_ascii c in
  ((x =? 225)%nat && (y =? 154)%nat && (z =? 128)%nat)
  || ((x =? 226)%nat && (y =? 128)%nat
      && (((128 <=? z)%nat && (z <=? 138)%nat)
          || (z =? 168)%nat || (z =? 169)%nat || (z =? 175)%nat))
  || ((x =? 226)%nat && (y =? 129)%nat && (z =? 159)%nat)
  || ((x =? 227)%nat && (y =? 128)%nat && (z =? 128)%nat).

(** [c.isspace()] for one character [c], given by its encoding. *)
Definition is_space (s : string) : bool :=
  match s with
  | String a EmptyString => ws1 a
  | String a (String b EmptyString) => ws2 a b
  | String a (String b (String c EmptyString)) => ws3 a b c
  | _ => false
  end.

(** [str.lstrip()]: the leading whitespace characters are dropped, of
    whatever length their encoding. *)
Fixpoint lstrip (s : string) : string :=
  match s with
  | EmptyString => ""
  | String a r1 =>
      if ws1 a then lstrip r1
      else match r1 with
           | EmptyString => s
           | String b r2 =>
               if ws2 a b then lstrip r2
               else match r2 with
                    | EmptyString => s
                    | String c r3 => if ws3 a b c then lstrip r3 else s
                    end
           end
  end.

(** [str.rstrip()]: from the right, what is left of the string once its
    tail is stripped is dropped too when it is one whitespace character. *)
Fixpoint rstrip (s : string) : string :=
  match s with
  | EmptyString => ""
  | String a rest =>
      let t := String a (rstrip rest) in
      if is_space t then "" else t
  end.

(** [str.strip()] *)
Definition strip (s : string) : string := rstrip (lstrip s).

(** [s.endswith(suffix)] *)
Fixpoint endswith (s suffix : string) : bool :=
  if String.eqb s suffix then true
  else match s with
       | EmptyString => false
       | String _ rest => endswith rest suffix
       end.

(** [s.endswith(t)] for a tuple [t] of suffixes. *)
Definition endswith_any (s : string) (suffixes : list string) : bool :=
  existsb (endswith s) suffixes.

(** A byte that continues the encoding of a character. *)
Definition is_continuation (a : ascii) : bool :=
  let n := nat_of_ascii a in (128 <=? n)%nat && (n <=? 191)%nat.

Definition continues (rest : string) : bool :=
  match rest with
  | String b _ => is_continuation b
  | EmptyString => false
  end.

(** [tuple(s)] and [list.extend(s)] for a string [s]: its characters, each
    with all the bytes of its encoding. *)
Fixpoint chars (s : string) : list string :=
  match s with
  | EmptyString => []
  | String a rest =>
      match chars rest with
      | w :: ws => if continues rest then String a w :: ws else String a "" :: w :: ws
      | [] => [String a ""]
      end
  end.

Definition lower_ascii (a : ascii) : ascii :=
  let n := nat_of_ascii a in
  if ((65 <=? n)%nat && (n <=? 90)%nat)%bool then ascii_of_nat (n + 32) else a.

(** [str.lower()] on the ASCII range; the lowered name only goes to the
    connector interface, which is free in what it makes of it. *)
Fixpoint lower (s : string) : string :=
  match s with
  | EmptyString => ""
  | String a rest => String (lower_ascii a) (lower rest)
  end.

Definition newline : string := String (ascii_of_nat 10) "".

(** ["\n".join(l)] *)
Definition join_lines (l : list string) : string := String.concat newline l.

Definition startswith_sep (s : string) : bool :=
  match s with
  | String a _ => Ascii.eqb a "/"
  | EmptyString => false
  end.

(** [os.path.join(a, b)] of [posixpath]. *)
Definition os_path_join (a b : string) : string :=
  if startswith_sep b then b
  else if (String.eqb a "" || endswith a "/")%bool then a ++ b
  else a ++ "/" ++ b.

(** The string starts with a whitespace character. *)
Definition starts_with_space (s : string) : bool :=
  match s with
  | EmptyString => false
  | String a r1 =>
      ws1 a
      || match r1 with
         | EmptyString => false
         | String b r2 =>
             ws2 a b
             || match r2 with
                | EmptyString => false
                | String c _ => ws3 a b c
                end
         end
  end.

(** The string ends with a whitespace character: one of its suffixes is
    the encoding of one. *)
Fixpoint ends_with_space (s : string) : bool :=
  is_space s
  || match s with
     | EmptyString => false
     | String _ rest => ends_with_space rest
     end.

(** No leading and no trailing whitespace. *)
Definition trimmed (s : string) : Prop :=
  starts_with_space s = false /\ ends_with_space s = false.

End PyStr.

Export PyStr.

(** ** Values, exceptions and outcomes *)

(** The values found in [self.args] and in the connect map: [None], a
    string, an integer, a boolean, or a list of strings (what
    [_run_command_setup] makes of [escrow_users]). *)
Inductive pyval :=
  | PNone
  | PStr (s : string)
  | PInt (z : Z)
  | PBool (b : bool)
  | PList (l : list string).

(** Truth value of a value in a condition. *)
Definition truthy (v : pyval) : bool :=
  match v with
  | PNone => false
  | PStr s => negb (String.eqb s "")
  | PInt z => negb (Z.eqb z 0)
  | PBool b => b
  | PList l => match l with [] => false | _ => true end
  end.

(** The exceptions the two modules raise or let through.  The classes of
    [libpkpass.errors] are separate classes; none of them is a [KeyError].
    [GroupDefinitionError key] stands for [GroupDefinitionError(str(err))]
    where [err] is the [KeyError] of [key]. *)
Inductive exn :=
  | KeyError (key : string)
  | TypeError
  | AttributeError
  | OSError (strerror : string)
  | ConnectorFailure (name : string)
  | FileOpenError (path reason : string)
  | CliArgumentError (msg : string)
  | NullRecipientError
  | GroupDefinitionError (key : string).

Inductive outcome (A : Type) :=
  | Ok (a : A)
  | Raise (e : exn).

Arguments Ok {A} a.
Arguments Raise {A} e.

Definition raised {A} (o : outcome A) : Prop :=
  match o with Ok _ => False | Raise _ => True end.

(** ** Data model of [IdentityDB] *)

Definition bytes := list Byte.byte.

(** One entry of an identity's ['certs'] list ([cert_dict]). *)
Record cert_dict := {
  cert_bytes : bytes;
  verified : bool;
  fingerprint : string;
  subject : string;
  issuer : string;
  enddate : string;
  issuerhash : string;
  subjecthash : string
}.

(** An entry of [self.iddb].  A field is [None] when the dict has no such
    key. *)
Record Identity := {
  uid : string;
  certificate_path : option string;
  key_path : option string;
  id_cabundle : option string;
  certs : option (list cert_dict)
}.

Record IdentityDB := {
  cabundle : string;
  iddb : gmap string Identity
}.

(** [IdentityDB()] *)
Definition IdentityDB_init : IdentityDB := {| cabundle := ""; iddb := ∅ |}.

Inductive filetype := certificate | key.

(** [self.extensions]: a list for certificates, a plain string for keys. *)
Inductive ext_entry :=
  | ExtList (l : list string)
  | ExtStr (s : string).

Definition extensions (ft : filetype) : ext_entry :=
  match ft with
  | certificate => ExtList [".cert"; ".crt"]
  | key => ExtStr ".key"
  end.

(** [tuple(self.extensions[filetype])]: the tuple of a list has its
    elements, the tuple of a string has its characters. *)
Definition ext_tuple (e : ext_entry) : list string :=
  match e with
  | ExtList l => l
  | ExtStr s => chars s
  end.

(** ["%s_path" % filetype] as a field of the identity. *)
Definition path_field (ft : filetype) (r : Identity) : option string :=
  match ft with
  | certificate => certificate_path r
  | key => key_path r
  end.

Definition set_path_field (ft : filetype) (p : string) (r : Identity) : Identity :=
  match ft with
  | certificate =>
      {| uid := uid r; certificate_path := Some p; key_path := key_path r;
         id_cabundle := id_cabundle r; certs := certs r |}
  | key =>
      {| uid := uid r; certificate_path := certificate_path r; key_path := Some p;
         id_cabundle := id_cabundle r; certs := certs r |}
  end.

(** [{'uid': ..., "%s_path" % filetype: filepath}] *)
Definition new_identity (ft : filetype) (u p : string) : Identity :=
  set_path_field ft p
    {| uid := u; certificate_path := None; key_path := None;
       id_cabundle := None; certs := None |}.

Definition other (ft : filetype) : filetype :=
  match ft with certificate => key | key => certificate end.

Definition set_iddb (m : gmap string Identity) (db : IdentityDB) : IdentityDB :=
  {| cabundle := cabundle db; iddb := m |}.

(** ** The collaborators *)

(** The operating system as the module uses it.  [listdir] and the writing
    operations fail with the [strerror] of an [OSError]. *)
Class FileSystem := {
  fs : Type;
  path_exists : fs -> string -> bool;
  isdir : fs -> string -> bool;
  listdir : fs -> string -> string + list string;
  makedirs : fs -> string -> string + fs;
  write_text : fs -> string -> string -> string + fs;
  (** [pem.parse_file(path)] with [as_bytes()] of each block *)
  parse_file : fs -> string -> string + list bytes;
  (** [tempfile.gettempdir()] *)
  gettempdir : string;
  listdir_exists : forall f d l, listdir f d = inr l -> path_exists f d = true
}.

(** [libpkpass.crypto] *)
Class CryptoProvider := {
  pk_verify_chain : bytes -> string -> bool;
  get_cert_fingerprint : bytes -> string;
  get_cert_subject : bytes -> string;
  get_cert_issuer : bytes -> string;
  get_cert_enddate : bytes -> string;
  get_cert_issuerhash : bytes -> string;
  get_cert_subjecthash : bytes -> string
}.

(** A connector: module [modname], class [clsname], built from [value];
    [list_certificates()] gives a name-to-blocks mapping or fails. *)
Class Connectors := {
  list_certificates : string -> string -> pyval -> option (list (string * list string))
}.

(** [list(set(l))]: the elements of [l], each once, in an order the language
    does not fix. *)
Class SetIteration := {
  set_list : list string -> list string;
  set_list_NoDup : forall l, NoDup (set_list l);
  set_list_elem : forall l x, x ∈ set_list l <-> x ∈ l
}.

(** Sequencing of two steps on a state: an exception of the first step
    skips the second and keeps the state the first step left. *)
Definition and_then {S : Type} (r : S * outcome unit) (k : S -> S * outcome unit)
  : S * outcome unit :=
  match r with
  | (s, Ok _) => k s
  | (s, Raise e) => (s, Raise e)
  end.

Notation "r >>> k" := (and_then r k) (at level 61, left associativity).

(** A [for] loop whose body may raise. *)
Fixpoint for_each {S A : Type} (body : S -> A -> S * outcome unit) (s : S) (l : list A)
  : S * outcome unit :=
  match l with
  | [] => (s, Ok tt)
  | x :: rest => body s x >>> (fun s' => for_each body s' rest)
  end.

(** ** [libpkpass/identities.py] *)

Section Identities.

Context `{FS : FileSystem} `{CP : CryptoProvider} `{CN : Connectors}.

(** [fname.split('.')[0]] *)
Definition uid_of_filename (fname : string) : string := hd "" (split "." fname).

(** The body of the loop of [_load_from_directory], on the value of
    [self.iddb]. *)
Definition load_entry (path : string) (ft : filetype) (m : gmap string Identity)
    (fname : string) : gmap string Identity :=
  if endswith_any fname (ext_tuple (extensions ft)) then
    let u := uid_of_filename fname in
    let filepath := os_path_join path fname in
    match m !! u with
    | Some r => <[u := set_path_field ft filepath r]> m
    | None =>
        let identity := new_identity ft (uid_of_filename fname) filepath in
        <[uid identity := identity]> m
    end
  else m.

Definition _load_from_directory (f : fs) (db : IdentityDB) (path : string) (ft : filetype)
  : IdentityDB * outcome unit :=
  match listdir f path with
  | inl strerror => (db, Raise (FileOpenError path strerror))
  | inr names => (set_iddb (fold_left (load_entry path ft) names (iddb db)) db, Ok tt)
  end.

(** [load_keys_from_directory] *)
Definition load_keys_from_directory (f : fs) (db : IdentityDB) (path : string)
  : IdentityDB * outcome unit :=
  if isdir f path then _load_from_directory f db path key else (db, Ok tt).

(** The [cert_dict] built for one certificate. *)
Definition make_cert_dict (cert : bytes) (bundle : string) : cert_dict :=
  {| cert_bytes := cert;
     verified := pk_verify_chain cert bundle;
     fingerprint := get_cert_fingerprint cert;
     subject := get_cert_subject cert;
     issuer := get_cert_issuer cert;
     enddate := get_cert_enddate cert;
     issuerhash := get_cert_issuerhash cert;
     subjecthash := get_cert_subjecthash cert |}.

Definition set_cabundle_field (b : string) (r : Identity) : Identity :=
  {| uid := uid r; certificate_path := certificate_path r; key_path := key_path r;
     id_cabundle := Some b; certs := certs r |}.

Definition set_certs (c : list cert_dict) (r : Identity) : Identity :=
  {| uid := uid r; certificate_path := certificate_path r; key_path := key_path r;
     id_cabundle := id_cabundle r; certs := Some c |}.

Definition not_in_database (who : string) : string :=
  "Error: Recipient '" ++ who ++ "' is not in the recipient database".

(** [verify_identity(identity, results)].  [results] is not used by the
    body.  A [KeyError] of any of the three subscriptions ([self.iddb[identity]],
    and ['certificate_path'] after the two assignments) becomes a
    [CliArgumentError]; an error of [parse_file] is not caught. *)
Definition verify_identity (f : fs) (db : IdentityDB) (identity : string) (results : pyval)
  : IdentityDB * outcome unit :=
  match iddb db !! identity with
  | None => (db, Raise (CliArgumentError (not_in_database identity)))
  | Some r =>
      let r1 := set_certs [] (set_cabundle_field (cabundle db) r) in
      let db1 := set_iddb (<[identity := r1]> (iddb db)) db in
      match certificate_path r1 with
      | None => (db1, Raise (CliArgumentError (not_in_database identity)))
      | Some p =>
          match parse_file f p with
          | inl strerror => (db1, Raise (OSError strerror))
          | inr blocks =>
              let bundle := default "" (id_cabundle r1) in
              let cs := fold_left (fun (acc : list cert_dict) cert =>
                                     (acc ++ [make_cert_dict cert bundle])%list)
                                  blocks [] in
              (set_iddb (<[identity := set_certs cs r1]> (iddb db)) db, Ok tt)
          end
      end
  end.

(** The state the loading functions work on: the file system, the identity
    database, and the connectors invoked so far (a log kept by the model). *)
Record World := {
  w_fs : fs;
  w_db : IdentityDB;
  w_calls : list string
}.

Definition set_fs (f : fs) (w : World) : World :=
  {| w_fs := f; w_db := w_db w; w_calls := w_calls w |}.

Definition set_db (db : IdentityDB) (w : World) : World :=
  {| w_fs := w_fs w; w_db := db; w_calls := w_calls w |}.

Definition log_call (name : string) (w : World) : World :=
  {| w_fs := w_fs w; w_db := w_db w; w_calls := w_calls w ++ [name] |}.

Definition lift_db (w : World) (r : IdentityDB * outcome unit) : World * outcome unit :=
  (set_db (fst r) w, snd r).

(** [str(self.extensions['certificate'][0])] *)
Definition cache_extension : string :=
  match extensions certificate with
  | ExtList (e :: _) => e
  | _ => ""
  end.

(** Lines 45-47: one cache file per name the connector returned. *)
Definition write_cert (dirname : string) (w : World) (entry : string * list string)
  : World * outcome unit :=
  let '(name, certlist) := entry in
  match write_text (w_fs w) (os_path_join dirname name ++ cache_extension)
                   (join_lines certlist) with
  | inl strerror => (w, Raise (OSError strerror))
  | inr f' => (set_fs f' w, Ok tt)
  end.

(** Lines 39-47: import the connector named by the key, build it from the
    value, list its certificates and write them to the cache directory. *)
Definition fetch_certs (key0 : string) (value : pyval) (dirname : string) (w : World)
  : World * outcome unit :=
  let w1 := log_call key0 w in
  match list_certificates (lower key0) key0 value with
  | None => (w1, Raise (ConnectorFailure key0))
  | Some found => for_each (write_cert dirname) w1 found
  end.

(** The condition of line 38, [nocache or not os.listdir(dirname)]; the
    directory is not listed when [nocache] holds. *)
Definition must_fetch (nocache : bool) (f : fs) (dirname : string) : string + bool :=
  if nocache then inr true
  else match listdir f dirname with
       | inl strerror => inl strerror
       | inr l => inr (match l with [] => true | _ => false end)
       end.

(** Lines 36-37 *)
Definition ensure_dir (dirname : string) (w : World) : World * outcome unit :=
  if path_exists (w_fs w) dirname then (w, Ok tt)
  else match makedirs (w_fs w) dirname with
       | inl strerror => (w, Raise (OSError strerror))
       | inr f' => (set_fs f' w, Ok tt)
       end.

(** The body of the loop of [_load_certs_from_external]. *)
Definition external_entry (nocache : bool) (temp_dir : pyval) (w : World)
    (kv : string * pyval) : World * outcome unit :=
  let '(key0, value) := kv in
  match temp_dir with
  | PStr tmp =>
      let dirname := os_path_join tmp key0 in
      ensure_dir dirname w >>> (fun w1 =>
      match must_fetch nocache (w_fs w1) dirname with
      | inl strerror => (w1, Raise (OSError strerror))
      | inr fetch =>
          (if fetch then fetch_certs key0 value dirname w1 else (w1, Ok tt)) >>> (fun w2 =>
          lift_db w2 (_load_from_directory (w_fs w2) (w_db w2) dirname certificate))
      end)
  | _ => (w, Raise TypeError)
  end.

(** Dict operations on the connect map. *)
Fixpoint assoc (k : string) (m : list (string * pyval)) : option pyval :=
  match m with
  | [] => None
  | (k', v) :: rest => if String.eqb k k' then Some v else assoc k rest
  end.

Definition del (k : string) (m : list (string * pyval)) : list (string * pyval) :=
  filter (fun kv => kv.1 ≠ k) m.

(** Lines 28-32: the directory under which the cache directories live, and
    the connect map that is then iterated. *)
Definition cache_root (connection_map : list (string * pyval))
  : pyval * list (string * pyval) :=
  match assoc "base_directory" connection_map with
  | Some v =>
      if truthy v then (v, del "base_directory" connection_map)
      else (PStr gettempdir, connection_map)
  | None => (PStr gettempdir, connection_map)
  end.

Definition _load_certs_from_external (w : World) (connection_map : list (string * pyval))
    (nocache : bool) : World * outcome unit :=
  let '(temp_dir, entries) := cache_root connection_map in
  for_each (external_entry nocache temp_dir) w entries.

(** A call [self.verify_identity(identity, *more)].  The method declares the
    parameters [(self, identity, results)], none with a default: a call that
    does not supply exactly one further positional argument raises
    [TypeError] when the arguments are bound, before the body runs. *)
Definition call_verify_identity (f : fs) (db : IdentityDB) (identity : string)
    (more : list pyval) : IdentityDB * outcome unit :=
  match more with
  | [results] => verify_identity f db identity results
  | _ => (db, Raise TypeError)
  end.

(** [threading.Thread(target=self.verify_identity, args=(identity, []))],
    started and run to its end.  An exception of the target ends the thread
    and goes to the thread's excepthook; neither [start()] nor [join()]
    raises it.  What the thread leaves is the database it wrote. *)
Definition thread_run (f : fs) (db : IdentityDB) (identity : string) : IdentityDB :=
  fst (call_verify_identity f db identity [PList []]).

(** Lines 82-88.  Each thread reads [self.cabundle] and reads and writes
    only [self.iddb[identity]] for its own identity, so the threads' effects
    are those of running them one after the other, here in the order of
    [self.iddb.items()] (see [verify_all_any_order]). *)
Definition verify_all (f : fs) (db : IdentityDB) : IdentityDB :=
  fold_left (thread_run f) (map fst (map_to_list (iddb db))) db.

Definition nonempty_str (o : option string) : bool :=
  match o with
  | Some s => negb (String.eqb s "")
  | None => false
  end.

Definition nonempty_map (o : option (list (string * pyval))) : bool :=
  match o with
  | Some (_ :: _) => true
  | _ => false
  end.

(** [load_certs_from_directory(certpath, verify_on_load, connectmap, nocache)] *)
Definition load_certs_from_directory (w : World) (certpath : option string)
    (verify_on_load : bool) (connectmap : option (list (string * pyval)))
    (nocache : bool) : World * outcome unit :=
  (if nonempty_map connectmap
   then _load_certs_from_external w (default [] connectmap) nocache
   else (w, Ok tt)) >>> (fun w1 =>
  (if nonempty_str certpath
   then lift_db w1 (_load_from_directory (w_fs w1) (w_db w1) (default "" certpath) certificate)
   else (w1, Ok tt)) >>> (fun w2 =>
  if verify_on_load
  then (set_db (verify_all (w_fs w2) (w_db w2)) w2, Ok tt)
  else (w2, Ok tt))).

End Identities.

(** ** [libpkpass/commands/command.py] *)

Section Command.

Context `{FS : FileSystem} `{CP : CryptoProvider} `{SI : SetIteration}.

(** The attributes of a [Command] that recipient handling reads and writes. *)
Record Command := {
  args : gmap string pyval;
  recipient_list : list string;
  identities : IdentityDB
}.

Definition set_recipient_list (l : list string) (c : Command) : Command :=
  {| args := args c; recipient_list := l; identities := identities c |}.

Definition set_identities (db : IdentityDB) (c : Command) : Command :=
  {| args := args c; recipient_list := recipient_list c; identities := db |}.

(** [v.split(',')]: only a string has the method. *)
Definition py_split (v : pyval) : outcome (list string) :=
  match v with
  | PStr s => Ok (split "," s)
  | _ => Raise AttributeError
  end.

(** The items [list.extend(v)] appends: the elements of a list, the
    characters of a string; the other values are not iterable. *)
Definition py_iter (v : pyval) : outcome (list string) :=
  match v with
  | PList l => Ok l
  | PStr s => Ok (chars s)
  | _ => Raise TypeError
  end.

(** [str(v)] for the values that are formatted into a message here (a list
    never is: it is refused before, as unhashable). *)
Definition py_str (v : pyval) : string :=
  match v with
  | PNone => "None"
  | PStr s => s
  | PInt z => pretty z
  | PBool b => if b then "True" else "False"
  | PList _ => ""
  end.

(** The loop of [_parse_group_membership]: [member_list] so far, the group
    names still to visit. *)
Fixpoint group_members (a : gmap string pyval) (member_list : list string)
    (groups : list string) : outcome (list string) :=
  match groups with
  | [] => Ok member_list
  | group :: rest =>
      match a !! strip group with
      | None => Raise (KeyError (strip group))
      | Some v =>
          match py_split v with
          | Ok members => group_members a (member_list ++ members) rest
          | Raise e => Raise e
          end
      end
  end.

Definition _parse_group_membership (c : Command) : outcome (list string) :=
  let body :=
    match args c !! "groups" with
    | None => Raise (KeyError "groups")
    | Some g =>
        match py_split g with
        | Ok groups => group_members (args c) [] groups
        | Raise e => Raise e
        end
    end in
  match body with
  | Raise (KeyError k) => Raise (GroupDefinitionError k)
  | r => r
  end.

(** [key in self.args and self.args[key] is not None] *)
Definition configured (c : Command) (k : string) : bool :=
  match args c !! k with
  | Some PNone | None => false
  | Some _ => true
  end.

(** Line 191 *)
Definition add_escrow_users (c : Command) : Command * outcome unit :=
  match args c !! "escrow_users" with
  | None => (c, Raise (KeyError "escrow_users"))
  | Some v =>
      match py_iter v with
      | Ok l => (set_recipient_list (recipient_list c ++ l) c, Ok tt)
      | Raise e => (c, Raise e)
      end
  end.

(** Lines 192-193 *)
Definition add_groups (c : Command) : Command * outcome unit :=
  if configured c "groups" then
    match _parse_group_membership c with
    | Ok members => (set_recipient_list (recipient_list c ++ members) c, Ok tt)
    | Raise e => (c, Raise e)
    end
  else (c, Ok tt).

(** Lines 194-195 *)
Definition add_users (c : Command) : Command * outcome unit :=
  if configured c "users" then
    match py_split (default PNone (args c !! "users")) with
    | Ok l => (set_recipient_list (recipient_list c ++ l) c, Ok tt)
    | Raise e => (c, Raise e)
    end
  else (c, Ok tt).

(** Line 196: the set is built from the entries as collected, and each
    element of the set is stripped afterwards. *)
Definition dedup_and_strip (c : Command) : Command * outcome unit :=
  (set_recipient_list (map strip (set_list (recipient_list c))) c, Ok tt).

(** Lines 197-199 *)
Definition reject_empty (c : Command) : Command * outcome unit :=
  for_each (fun c' user =>
              if String.eqb user "" then (c', Raise NullRecipientError) else (c', Ok tt))
           c (recipient_list c).

(** The three collecting steps, lines 191-195. *)
Definition collect_recipients (c : Command) : Command * outcome unit :=
  add_escrow_users c >>> add_groups >>> add_users.

(** [_build_recipient_list]: the [try] body, and the handler that drops a
    [KeyError]. *)
Definition _build_recipient_list (c : Command) : Command * outcome unit :=
  match collect_recipients c >>> dedup_and_strip >>> reject_empty with
  | (c', Raise (KeyError _)) => (c', Ok tt)
  | r => r
  end.

Definition user_not_in_database (who : string) : string :=
  "Error: Your user '" ++ who ++ "' is not in the recipient database".

(** The body of the loop of [_validate_identities], lines 262-266.  The call
    of line 262 passes the recipient and nothing else. *)
Definition validate_recipient (f : fs) (c : Command) (recipient : string)
  : Command * outcome unit :=
  (let r := call_verify_identity f (identities c) recipient [] in
   (set_identities (fst r) c, snd r)) >>> (fun c1 =>
  match iddb (identities c1) !! recipient with
  | Some _ => (c1, Ok tt)
  | None => (c1, Raise (CliArgumentError (not_in_database recipient)))
  end).

(** Lines 268-271.  The keys of [iddb] are strings, so a value of another
    hashable type is not among them; a list is not hashable. *)
Definition validate_operator (c : Command) : Command * outcome unit :=
  match args c !! "identity" with
  | None => (c, Raise (KeyError "identity"))
  | Some (PList _) => (c, Raise TypeError)
  | Some (PStr s) =>
      match iddb (identities c) !! s with
      | Some _ => (c, Ok tt)
      | None => (c, Raise (CliArgumentError (user_not_in_database s)))
      end
  | Some v => (c, Raise (CliArgumentError (user_not_in_database (py_str v))))
  end.

Definition _validate_identities (f : fs) (c : Command) : Command * outcome unit :=
  for_each (validate_recipient f) c (recipient_list c) >>> validate_operator.

End Command.

(** ** [libpkpass/commands/command.py]: the checks on the arguments *)

(** [args_list] of [_validate_combinatorial_args] *)
Definition args_list : list (list string) :=
  [["certpath"; "connect"]; ["certpath"; "keypath"]].

(** The inner loop of [_validate_combinatorial_args]: [valid] becomes true
    at the first argument of the set that is in [self.args] with a value
    other than [None]. *)
Fixpoint any_given (c : Command) (arg_set : list string) : bool :=
  match arg_set with
  | [] => false
  | arg :: rest => if configured c arg then true else any_given c rest
  end.

(** ["'%s' or '%s' is required" % tuple(arg_set)]: the format takes exactly
    two values. *)
Definition is_required (arg_set : list string) : exn :=
  match arg_set with
  | [a; b] => CliArgumentError ("'" ++ a ++ "' or '" ++ b ++ "' is required")
  | _ => TypeError
  end.

(** The body of the outer loop of [_validate_combinatorial_args]. *)
Definition check_arg_set (c : Command) (arg_set : list string) : Command * outcome unit :=
  if any_given c arg_set then (c, Ok tt) else (c, Raise (is_required arg_set)).

Definition _validate_combinatorial_args (c : Command) : Command * outcome unit :=
  for_each check_arg_set c args_list.

(** ** [libpkpass/commands/command.py]: the start of [_run_command_setup] *)

(** [os.path.exists(v)] on a value: on a string it is the test of the file
    system; what it does on another value (raise, or test a descriptor) is
    left to the interpreter. *)
Class PathProbe `{FileSystem} := {
  exists_value : fs -> pyval -> outcome bool;
  exists_value_str : forall f s, exists_value f (PStr s) = Ok (path_exists f s)
}.

Definition set_args (a : gmap string pyval) (c : Command) : Command :=
  {| args := a; recipient_list := recipient_list c; identities := identities c |}.

(** [fles] of [_run_command_setup] *)
Definition fles : list string := ["cabundle"; "pwstore"].

Definition is_none (v : pyval) : bool :=
  match v with PNone => true | _ => false end.

(** Lines 84-85: the value of the command line is stored when it is not
    [None], or when [self.args] has no such key. *)
Definition store_cli_arg (c : Command) (key0 : string) (value : pyval) : Command :=
  if (negb (is_none value) || negb (bool_decide (is_Some (args c !! key0))))%bool
  then set_args (<[key0 := value]> (args c)) c
  else c.

(** Lines 86-87 *)
Definition check_file_arg `{PathProbe} (f : fs) (c : Command) (key0 : string)
  : Command * outcome unit :=
  if bool_decide (key0 ∈ fles) then
    match args c !! key0 with
    | None => (c, Raise (KeyError key0))
    | Some v =>
        match exists_value f v with
        | Raise e => (c, Raise e)
        | Ok true => (c, Ok tt)
        | Ok false => (c, Raise (FileOpenError (py_str v) "No such file or directory"))
        end
    end
  else (c, Ok tt).

(** The body of the loop of lines 83-87. *)
Definition merge_cli_arg `{PathProbe} (f : fs) (c : Command) (kv : string * pyval)
  : Command * outcome unit :=
  check_file_arg f (store_cli_arg c kv.1 kv.2) kv.1.

(** Lines 83-87, over the items of [cli_args] in their order. *)
Definition merge_cli_args `{PathProbe} (f : fs) (c : Command) (cli_args : list (string * pyval))
  : Command * outcome unit :=
  for_each (merge_cli_arg f) c cli_args.

(** Line 92: [escrow_users] becomes the list of its comma-separated parts,
    or the empty list when it is [None] or empty. *)
Definition split_escrow_users (c : Command) : Command * outcome unit :=
  match args c !! "escrow_users" with
  | None => (c, Raise (KeyError "escrow_users"))
  | Some v =>
      if truthy v then
        match py_split v with
        | Ok l => (set_args (<["escrow_users" := PList l]> (args c)) c, Ok tt)
        | Raise e => (c, Raise e)
        end
      else (set_args (<["escrow_users" := PList []]> (args c)) c, Ok tt)
  end.

(** ** Instances of the collaborators, for running the code on examples *)

Module Demo.

(** A file system in memory: the listing of each directory and the text of
    each file, both by full path. *)
Record memfs := {
  dirs : gmap string (list string);
  files : gmap string string
}.

(** The directory part and the last component of a path. *)
Fixpoint path_split (p : string) : string * string :=
  match p with
  | EmptyString => ("", "")
  | String a rest =>
      let '(d, b) := path_split rest in
      if Ascii.eqb a "/" then
        if existsb (Ascii.eqb "/") (list_ascii_of_string rest)
        then (String a d, b) else ("", rest)
      else if existsb (Ascii.eqb "/") (list_ascii_of_string rest)
           then (String a d, b) else ("", String a rest)
  end.

Definition parent (p : string) : string :=
  let d := (path_split p).1 in
  if String.eqb d "" then "/" else d.

Definition no_such : string := "No such file or directory".

Definition mem_listdir (f : memfs) (d : string) : string + list string :=
  match dirs f !! d with
  | Some l => inr l
  | None => inl no_such
  end.

Definition mem_exists (f : memfs) (p : string) : bool :=
  bool_decide (is_Some (dirs f !! p)) || bool_decide (is_Some (files f !! p)).

Definition add_name (b : string) (l : list string) : list string :=
  if bool_decide (b ∈ l) then l else l ++ [b].

Definition mem_makedirs (f : memfs) (d : string) : string + memfs :=
  inr {| dirs := <[d := []]> (alter (add_name (path_split d).2) (parent d) (dirs f));
         files := files f |}.

Definition mem_write (f : memfs) (p content : string) : string + memfs :=
  match dirs f !! parent p with
  | Some l =>
      inr {| dirs := <[parent p := add_name (path_split p).2 l]> (dirs f);
             files := <[p := content]> (files f) |}
  | None => inl no_such
  end.

Definition bytes_of_string (s : string) : bytes :=
  map byte_of_ascii (list_ascii_of_string s).

Definition mem_parse (f : memfs) (p : string) : string + list bytes :=
  match files f !! p with
  | Some text => inr [bytes_of_string text]
  | None => inl no_such
  end.

#[export] Program Instance mem_fs : FileSystem := {|
  fs := memfs;
  path_exists := mem_exists;
  isdir f p := bool_decide (is_Some (dirs f !! p));
  listdir := mem_listdir;
  makedirs := mem_makedirs;
  write_text := mem_write;
  parse_file := mem_parse;
  gettempdir := "/tmp"
|}.
Next Obligation.
  intros f d l. unfold mem_listdir, mem_exists.
  destruct (dirs f !! d) eqn:E; [|discriminate].
  intros _. rewrite bool_decide_eq_true_2; [reflexivity | eauto].
Defined.

(** A crypto module that trusts every certificate under the bundle
    ["ca-bundle"] and derives no other data. *)
#[export] Instance plain_crypto : CryptoProvider := {|
  pk_verify_chain _ bundle := String.eqb bundle "ca-bundle";
  get_cert_fingerprint _ := "";
  get_cert_subject _ := "";
  get_cert_issuer _ := "";
  get_cert_enddate _ := "";
  get_cert_issuerhash _ := "";
  get_cert_subjecthash _ := ""
|}.

(** One connector, [Ldap] in module [ldap], that knows the user [zoe]. *)
#[export] Instance one_connector : Connectors := {|
  list_certificates modname clsname _ :=
    if (String.eqb modname "ldap" && String.eqb clsname "Ldap")%bool
    then Some [("zoe", ["BEGIN"; "END"])] else None
|}.

(** The set keeps the first occurrence of each element, in order. *)
#[export] Program Instance first_occurrence : SetIteration := {|
  set_list := remove_dups
|}.
Next Obligation. intros l. apply NoDup_remove_dups. Qed.
Next Obligation. intros l x. apply elem_of_remove_dups. Qed.

Definition empty_fs : memfs := {| dirs := ∅; files := ∅ |}.

(** [os.path.exists] that refuses what is not a string. *)
Definition strict_exists (f : memfs) (v : pyval) : outcome bool :=
  match v with
  | PStr s => Ok (mem_exists f s)
  | _ => Raise TypeError
  end.

#[export] Instance strict_probe : PathProbe (H := mem_fs) := {|
  exists_value := strict_exists;
  exists_value_str := fun f s => eq_refl
|}.

Definition dir_fs (d : string) (names : list string) : memfs :=
  {| dirs := {[ d := names ]}; files := ∅ |}.

End Demo.

(** ** Vocabulary of the statements *)

(** A string without the character ['.'] *)
Fixpoint no_dot (s : string) : bool :=
  match s with
  | EmptyString => true
  | String a rest => negb (Ascii.eqb a ".") && no_dot rest
  end.

(** The members a group name stands for: the value of the key of that name,
    split at the commas. *)
Definition members_of (a : gmap string pyval) (name : string) : list string :=
  match a !! strip name with
  | Some (PStr m) => split "," m
  | _ => []
  end.

(** In the words of the specification: the known extensions of an artifact
    type, [.cert] and [.crt] for certificates, [.key] for keys. *)
Definition known_extensions (ft : filetype) : list string :=
  match ft with
  | certificate => [".cert"; ".crt"]
  | key => [".key"]
  end.

(** In the words of the specification: the file name with its extension
    stripped, that is, without the known extension it ends with. *)
Definition strip_extension (ft : filetype) (fname : string) : string :=
  match filter (fun ext => Is_true (endswith fname ext)) (known_extensions ft) with
  | ext :: _ => String.substring 0 (String.length fname - String.length ext) fname
  | [] => fname
  end.

(** Every record of the mapping is stored under its own [uid]. *)
Definition keyed_by_uid (m : gmap string Identity) : Prop :=
  forall k r, m !! k = Some r -> uid r = k.

(** What one file leaves of a record that was there: everything but,
    possibly, the path of the artifact type being loaded. *)
Definition same_but_path (ft : filetype) (r r' : Identity) : Prop :=
  uid r' = uid r
  /\ path_field (other ft) r' = path_field (other ft) r
  /\ id_cabundle r' = id_cabundle r
  /\ certs r' = certs r
  /\ (is_Some (path_field ft r) -> is_Some (path_field ft r')).

(** The record [verify_identity] leaves for an identity, from the record it
    found: none if there was none; otherwise the record with the store's
    [cabundle] and the [certs] derived from the blocks of its certificate
    file, or empty [certs] when it has no certificate path or the file
    cannot be parsed. *)
Definition verified_record `{FileSystem} `{CryptoProvider} (f : fs) (bundle : string)
    (o : option Identity) : option Identity :=
  match o with
  | None => None
  | Some r =>
      let r1 := set_certs [] (set_cabundle_field bundle r) in
      match certificate_path r with
      | None => Some r1
      | Some p =>
          match parse_file f p with
          | inl _ => Some r1
          | inr blocks => Some (set_certs (map (fun c => make_cert_dict c bundle) blocks) r1)
          end
      end
  end.

(** The outcome of [verify_identity], from the record it found. *)
Definition verify_outcome `{FileSystem} (f : fs) (identity : string) (o : option Identity)
  : outcome unit :=
  match o with
  | None => Raise (CliArgumentError (not_in_database identity))
  | Some r =>
      match certificate_path r with
      | None => Raise (CliArgumentError (not_in_database identity))
      | Some p =>
          match parse_file f p with
          | inl strerror => Raise (OSError strerror)
          | inr _ => Ok tt
          end
      end
  end.

(** The test of line 57 on a file name. *)
Definition selected (ft : filetype) (fname : string) : bool :=
  endswith_any fname (ext_tuple (extensions ft)).

(** The last file of a listing that passes the test of line 57 and has the
    given uid. *)
Fixpoint last_match (ft : filetype) (u : string) (names : list string) : option string :=
  match names with
  | [] => None
  | x :: rest =>
      match last_match ft u rest with
      | Some y => Some y
      | None => if (selected ft x && String.eqb (uid_of_filename x) u)%bool
                then Some x else None
      end
  end.

(** The record under [u] once a file of path [p] has been loaded for it:
    the record that was there with the path replaced, or a new record. *)
Definition upsert_path (ft : filetype) (p u : string) (o : option Identity) : Identity :=
  match o with
  | Some r => set_path_field ft p r
  | None => new_identity ft u p
  end.

(** What loading and verifying leave of a record: its [uid] and its two
    paths. *)
Definition same_paths (r r' : Identity) : Prop :=
  uid r' = uid r
  /\ certificate_path r' = certificate_path r
  /\ key_path r' = key_path r.

(** A database keeps the identities of another, each with its [uid] and
    its key path. *)
Definition keeps_identities (db db' : IdentityDB) : Prop :=
  forall k r, iddb db !! k = Some r ->
    exists r', iddb db' !! k = Some r' /\ uid r' = uid r /\ key_path r' = key_path r.

(** The loads of the cache directories alone, one per entry. *)
Definition load_cache_directories `{FileSystem} (f : fs) (tmp : string) (entries : list (string * pyval))
    (db : IdentityDB) : IdentityDB :=
  fold_left (fun db kv => (_load_from_directory f db (os_path_join tmp kv.1) certificate).1)
            entries db.

(** The value under a key after the command line gave [value] for it:
    [value] itself unless it is [None] and the key already had a value. *)
Definition merged_value (old : option pyval) (value : pyval) : option pyval :=
  match value, old with
  | PNone, Some o => Some o
  | _, _ => Some value
  end.

(** ** Sample inputs *)

Module Samples.

Definition command (a : gmap string pyval) : Command :=
  {| args := a; recipient_list := []; identities := IdentityDB_init |}.

(** [users="bob, bob"], no escrow users, no groups *)
Definition bob_twice : Command :=
  command {[ "escrow_users" := PList []; "users" := PStr "bob, bob" ]}.

(** [users=","] *)
Definition only_comma : Command :=
  command {[ "escrow_users" := PList []; "users" := PStr "," ]}.

(** [groups="team1"], [team1="dave,erin"] *)
Definition team1 : Command :=
  command {[ "escrow_users" := PList []; "groups" := PStr "team1";
             "team1" := PStr "dave,erin" ]}.

(** [groups="missing"], and no key [missing] *)
Definition missing_group : Command :=
  command {[ "escrow_users" := PList []; "groups" := PStr "missing" ]}.

(** A directory with a certificate in each spelling and a key *)
Definition abc_fs : Demo.memfs := Demo.dir_fs "/certs" ["a.crt"; "b.cert"; "c.key"].

(** A certificate whose base name has a dot *)
Definition dotted_fs : Demo.memfs := Demo.dir_fs "/certs" ["john.doe.crt"].

(** The key and two certificates of [carol], in three directories *)
Definition carol_fs : Demo.memfs :=
  {| Demo.dirs := {[ "/private" := ["carol.key"]; "/certs" := ["carol.crt"];
                     "/more" := ["carol.cert"] ]};
     Demo.files := ∅ |}.

(** The database after [load_keys_from_directory("/private")]: [carol],
    with a key path and no certificate path. *)
Definition keys_only : IdentityDB :=
  (load_keys_from_directory (FS := Demo.mem_fs) carol_fs
     {| cabundle := "ca-bundle"; iddb := ∅ |} "/private").1.

Definition keys_only_world : World (FS := Demo.mem_fs) :=
  @Build_World Demo.mem_fs carol_fs keys_only [].

(** A certificate directory with the certificate file of [zoe], and the
    database loaded from it. *)
Definition zoe_fs : Demo.memfs :=
  {| Demo.dirs := {[ "/certs" := ["zoe.crt"] ]};
     Demo.files := {[ "/certs/zoe.crt" := "PEM" ]} |}.

Definition zoe_db : IdentityDB :=
  (_load_from_directory (FS := Demo.mem_fs) zoe_fs
     {| cabundle := "ca-bundle"; iddb := ∅ |} "/certs" certificate).1.

(** A cache root [/tmp] where the connector [Ldap] has a cache directory
    with one file, and one where the cache directory is empty. *)
Definition cached_fs : Demo.memfs :=
  {| Demo.dirs := {[ "/tmp" := ["Ldap"]; "/tmp/Ldap" := ["zoe.cert"] ]};
     Demo.files := {[ "/tmp/Ldap/zoe.cert" := "PEM" ]} |}.

Definition uncached_fs : Demo.memfs :=
  {| Demo.dirs := {[ "/tmp" := ["Ldap"]; "/tmp/Ldap" := [] ]}; Demo.files := ∅ |}.

Definition world_of (f : Demo.memfs) : World (FS := Demo.mem_fs) :=
  @Build_World Demo.mem_fs f {| cabundle := "ca-bundle"; iddb := ∅ |} [].

Definition ldap_map : list (string * pyval) := [("Ldap", PStr "ldap://directory")].

(** A command with the recipient [alice], the operator [op] and an empty
    identity database. *)
Definition alice_unknown : Command :=
  {| args := {[ "identity" := PStr "op" ]}; recipient_list := ["alice"];
     identities := IdentityDB_init |}.

End Samples.

Module MoreSamples.

(** Two certificates of the uid [john] and one of [jane] *)
Definition johns_fs : Demo.memfs :=
  Demo.dir_fs "/certs" ["john.crt"; "jane.cert"; "john.cert"].

(** A database with the certificates of [a] and [b], both parsable. *)
Definition ab_fs : Demo.memfs :=
  {| Demo.dirs := {[ "/certs" := ["a.crt"; "b.crt"] ]};
     Demo.files := {[ "/certs/a.crt" := "A"; "/certs/b.crt" := "B" ]} |}.

Definition ab_db : IdentityDB :=
  (_load_from_directory (FS := Demo.mem_fs) ab_fs
     {| cabundle := "ca-bundle"; iddb := ∅ |} "/certs" certificate).1.

(** Arguments with a key path and a connect string, and no certificate
    path. *)
Definition connect_only : Command :=
  Samples.command {[ "certpath" := PNone; "keypath" := PStr "./private";
                     "connect" := PStr "{}" ]}.

(** A command without recipients whose operator [op] is in the database. *)
Definition op_known : Command :=
  {| args := {[ "identity" := PStr "op" ]}; recipient_list := [];
     identities := {| cabundle := ""; iddb := {[ "op" := new_identity key "op" "/k/op.key" ]} |} |}.

(** [users="bob,alice"] and [users="alice,bob,alice"], escrow user [carol] *)
Definition bob_alice : Command :=
  Samples.command {[ "escrow_users" := PList ["carol"]; "users" := PStr "bob,alice" ]}.

Definition alice_bob_alice : Command :=
  Samples.command {[ "escrow_users" := PList ["carol"]; "users" := PStr "alice,bob,alice" ]}.

(** [users=","] and no key [escrow_users] *)
Definition no_escrow_key : Command :=
  Samples.command {[ "users" := PStr "," ]}.

(** The default arguments with a configured [cabundle], and a command line
    that names a password store and leaves the bundle out. *)
Definition configured_args : Command :=
  Samples.command {[ "cabundle" := PStr "/certs"; "pwstore" := PStr "./passwords";
                     "escrow_users" := PStr "carol, dave" ]}.

Definition cli : list (string * pyval) :=
  [("cabundle", PNone); ("pwstore", PStr "/private"); ("pwname", PNone)].

End MoreSamples.

Module Unicode.

Definition of_bytes (l : list nat) : string :=
  string_of_list_ascii (map ascii_of_nat l).

(** U+00A0, the no-break space, and U+2003, the em space, encoded *)
Definition nbsp : string := of_bytes [194; 160].
Definition em_space : string := of_bytes [226; 128; 131].

(** U+00C5 and U+2020, which share bytes with whitespace characters and
    are none *)
Definition a_ring : string := of_bytes [195; 133].
Definition dagger : string := of_bytes [226; 128; 160].

(** [groups] names [team1] followed by a no-break space; the member of
    [team1] is followed by an em space. *)
Definition spaced_group : Command :=
  Samples.command {[ "escrow_users" := PList []; "groups" := PStr ("team1" ++ nbsp);
                     "team1" := PStr ("dave" ++ em_space) ]}.

(** [users] is a no-break space. *)
Definition nbsp_user : Command :=
  Samples.command {[ "escrow_users" := PList []; "users" := PStr nbsp ]}.

End Unicode.

(** * Properties *)

(** ** Strings *)

Lemma split_not_nil sep s : split sep s ≠ [].
Proof.
  destruct s as [|a rest]; simpl; [discriminate|].
  destruct (split sep rest); [discriminate|].
  destruct (Ascii.eqb a sep); discriminate.
Qed.

Lemma lstrip_unfold s :
  lstrip s =
  match s with
  | EmptyString => ""
  | String a r1 =>
      if ws1 a then lstrip r1
      else match r1 with
           | EmptyString => s
           | String b r2 =>
               if ws2 a b then lstrip r2
               else match r2 with
                    | EmptyString => s
                    | String c r3 => if ws3 a b c then lstrip r3 else s
                    end
           end
  end.
Proof. destruct s; reflexivity. Qed.

(** One step of [lstrip]: the string starts with no whitespace and is
    returned, or it starts with a whitespace character and the rest is
    stripped. *)
Lemma lstrip_step s :
  (starts_with_space s = false /\ lstrip s = s)
  \/ (starts_with_space s = true
      /\ exists r, lstrip s = lstrip r /\ (String.length r < String.length s)%nat).
Proof.
  rewrite (lstrip_unfold s).
  destruct s as [|a [|b [|c r3]]]; cbn [starts_with_space String.length].
  - left. auto.
  - destruct (ws1 a); cbn [orb]; [right | left; auto].
    split; [reflexivity|]. exists "". split; [reflexivity | simpl; lia].
  - destruct (ws1 a); cbn [orb].
    + right. split; [reflexivity|]. eexists. split; [reflexivity | simpl; lia].
    + destruct (ws2 a b); cbn [orb]; [right | left; auto].
      split; [reflexivity|]. exists "". split; [reflexivity | simpl; lia].
  - destruct (ws1 a); cbn [orb].
    + right. split; [reflexivity|]. eexists. split; [reflexivity | simpl; lia].
    + destruct (ws2 a b); cbn [orb].
      * right. split; [reflexivity|]. eexists. split; [reflexivity | simpl; lia].
      * destruct (ws3 a b c); [right | left; auto].
        split; [reflexivity|]. eexists. split; [reflexivity | simpl; lia].
Qed.

Lemma lstrip_first s : starts_with_space (lstrip s) = false.
Proof.
  remember (String.length s) as n eqn:Hn.
  revert s Hn. induction n as [n IH] using lt_wf_ind. intros s Hn.
  destruct (lstrip_step s) as [[Hs ->] | (_ & r & -> & Hlt)]; [exact Hs|].
  apply (IH (String.length r)); [lia | reflexivity].
Qed.

Lemma ends_with_space_unfold a rest :
  ends_with_space (String a rest) = (is_space (String a rest) || ends_with_space rest)%bool.
Proof. reflexivity. Qed.

Lemma rstrip_unfold a rest :
  rstrip (String a rest)
  = if is_space (String a (rstrip rest)) then "" else String a (rstrip rest).
Proof. reflexivity. Qed.

Lemma rstrip_last s : ends_with_space (rstrip s) = false.
Proof.
  induction s as [|a rest IH]; [reflexivity|].
  rewrite rstrip_unfold.
  destruct (is_space (String a (rstrip rest))) eqn:E; [reflexivity|].
  rewrite ends_with_space_unfold, E, IH. reflexivity.
Qed.

Lemma rstrip_prefix s : String.prefix (rstrip s) s = true.
Proof.
  induction s as [|a rest IH]; [reflexivity|].
  rewrite rstrip_unfold.
  destruct (is_space (String a (rstrip rest))); [reflexivity|].
  simpl. destruct (ascii_dec a a); [exact IH | congruence].
Qed.

Lemma starts_with_space_prefix p s :
  String.prefix p s = true -> starts_with_space p = true -> starts_with_space s = true.
Proof.
  destruct p as [|a p1]; [discriminate|].
  destruct s as [|a' s1]; [discriminate|]. simpl.
  destruct (ascii_dec a a') as [<-|]; [|discriminate].
  destruct (ws1 a); [reflexivity|]. simpl.
  destruct p1 as [|b p2]; [discriminate|].
  destruct s1 as [|b' s2]; [discriminate|]. simpl.
  destruct (ascii_dec b b') as [<-|]; [|discriminate].
  destruct (ws2 a b); [reflexivity|]. simpl.
  destruct p2 as [|c p3]; [discriminate|].
  destruct s2 as [|c' s3]; [discriminate|]. simpl.
  destruct (ascii_dec c c') as [<-|]; [|discriminate].
  intros _ H. exact H.
Qed.

Lemma rstrip_first s : starts_with_space s = false -> starts_with_space (rstrip s) = false.
Proof.
  intros Hs. destruct (starts_with_space (rstrip s)) eqn:E; [|reflexivity].
  rewrite (starts_with_space_prefix _ _ (rstrip_prefix s) E) in Hs. discriminate.
Qed.

Lemma strip_trimmed s : trimmed (strip s).
Proof.
  split; unfold strip.
  - apply rstrip_first, lstrip_first.
  - apply rstrip_last.
Qed.

Lemma endswith_unfold s suffix :
  endswith s suffix =
  if String.eqb s suffix then true
  else match s with
       | EmptyString => false
       | String _ rest => endswith rest suffix
       end.
Proof. destruct s; reflexivity. Qed.

Lemma endswith_refl s : endswith s s = true.
Proof. rewrite endswith_unfold, String.eqb_refl. reflexivity. Qed.

Lemma endswith_app p suffix : endswith (p ++ suffix) suffix = true.
Proof.
  induction p as [|a p IH]; [apply endswith_refl|].
  rewrite endswith_unfold.
  change (String a p ++ suffix) with (String a (p ++ suffix)).
  cbv iota. rewrite IH. destruct (String.eqb _ _); reflexivity.
Qed.

Lemma split_dot_head stem rest :
  no_dot stem = true -> hd "" (split "." (stem ++ String "." rest)) = stem.
Proof.
  induction stem as [|a stem IH]; simpl; intros Hn.
  - pose proof (split_not_nil "." rest) as Hne.
    destruct (split "." rest); [congruence | reflexivity].
  - apply andb_true_iff in Hn as [Ha Hs].
    specialize (IH Hs).
    pose proof (split_not_nil "." (stem ++ String "." rest)) as Hne.
    destruct (split "." (stem ++ String "." rest)) as [|w ws]; [congruence|].
    simpl in IH. subst w.
    destruct (Ascii.eqb a ".") eqn:E; [discriminate | reflexivity].
Qed.

(** ** Recipient resolution ([_build_recipient_list]) *)

Section RecipientList.

Context `{SI : SetIteration}.

Lemma reject_empty_state c l :
  (for_each (fun (c' : Command) user =>
               if String.eqb user "" then (c', Raise NullRecipientError) else (c', Ok tt))
            c l).1 = c.
Proof.
  induction l as [|x l IH]; simpl; [reflexivity|].
  destruct (String.eqb x ""); simpl; [reflexivity | exact IH].
Qed.

Lemma reject_empty_raises c l :
  "" ∈ l ->
  for_each (fun (c' : Command) user =>
              if String.eqb user "" then (c', Raise NullRecipientError) else (c', Ok tt))
           c l = (c, Raise NullRecipientError).
Proof.
  induction l as [|x l IH]; intros Hin; [inversion Hin|]. simpl.
  destruct (String.eqb x "") eqn:E; [reflexivity|]. simpl. apply IH.
  apply elem_of_cons in Hin as [<-|Hin]; [cbv in E; discriminate | exact Hin].
Qed.

Lemma reject_empty_passes c l :
  "" ∉ l ->
  for_each (fun (c' : Command) user =>
              if String.eqb user "" then (c', Raise NullRecipientError) else (c', Ok tt))
           c l = (c, Ok tt).
Proof.
  induction l as [|x l IH]; intros Hin; [reflexivity|]. simpl.
  destruct (String.eqb x "") eqn:E.
  - apply String.eqb_eq in E. subst x. exfalso. apply Hin. left.
  - simpl. apply IH. intros H. apply Hin. right. exact H.
Qed.

(** What [_build_recipient_list] returns once the entries are collected:
    the stripped elements of the set, and [NullRecipientError] exactly when
    one of them is empty. *)
Lemma build_after_collect c c2 :
  collect_recipients c = (c2, Ok tt) ->
  let l := map strip (set_list (recipient_list c2)) in
  _build_recipient_list c =
    (set_recipient_list l c2,
     if bool_decide ("" ∈ l) then Raise NullRecipientError else Ok tt).
Proof.
  intros Hc l. unfold _build_recipient_list. rewrite Hc. simpl.
  unfold reject_empty. simpl. fold l.
  case_bool_decide as Hin.
  - rewrite reject_empty_raises by exact Hin. reflexivity.
  - rewrite reject_empty_passes by exact Hin. reflexivity.
Qed.

(** Every entry of the resolved list is stripped. *)
Lemma build_recipient_list_trimmed c c2 :
  collect_recipients c = (c2, Ok tt) ->
  Forall trimmed (recipient_list (_build_recipient_list c).1).
Proof.
  intros Hc. rewrite (build_after_collect _ _ Hc). simpl.
  apply Forall_forall. intros x Hx.
  apply list_elem_of_fmap in Hx as (y & -> & _). apply strip_trimmed.
Qed.

Lemma set_list_perm l : set_list l ≡ₚ remove_dups l.
Proof.
  apply NoDup_Permutation.
  - apply set_list_NoDup.
  - apply NoDup_remove_dups.
  - intros x. rewrite set_list_elem, elem_of_remove_dups. reflexivity.
Qed.

End RecipientList.

Section RecipientClaims.

Context `{SI : SetIteration}.

(** C3 (evaluation at the failing input).  For [users="bob, bob"] the two
    entries ["bob"] and [" bob"] are different elements of the set built on
    line 196 and are stripped only afterwards: whatever the iteration order
    of the set, [_build_recipient_list] returns normally with the recipient
    list [["bob"; "bob"]], in which the name [bob] occurs twice. *)
Theorem build_recipient_list_whitespace_duplicate :
  _build_recipient_list Samples.bob_twice =
    (set_recipient_list ["bob"; "bob"] Samples.bob_twice, Ok tt)
  /\ ~ NoDup (recipient_list (_build_recipient_list Samples.bob_twice).1).
Proof.
  assert (Hc : collect_recipients Samples.bob_twice =
               (set_recipient_list ["bob"; " bob"] Samples.bob_twice, Ok tt))
    by (vm_compute; reflexivity).
  assert (Hl : map strip (set_list ["bob"; " bob"]) = ["bob"; "bob"]).
  { pose proof (set_list_perm ["bob"; " bob"]) as Hp.
    replace (remove_dups ["bob"; " bob"]) with ["bob"; " bob"] in Hp
      by (vm_compute; reflexivity).
    symmetry in Hp. apply Permutation_length_2_inv in Hp as [-> | ->]; reflexivity. }
  assert (Hb : _build_recipient_list Samples.bob_twice =
               (set_recipient_list ["bob"; "bob"] Samples.bob_twice, Ok tt)).
  { rewrite (build_after_collect _ _ Hc). simpl recipient_list. rewrite Hl.
    rewrite bool_decide_eq_false_2; [reflexivity|].
    intros Hin. repeat (apply elem_of_cons in Hin as [Hin|Hin]; [discriminate|]).
    inversion Hin. }
  split; [exact Hb|].
  rewrite Hb. simpl. intros Hnd. apply NoDup_cons in Hnd as [Hnin _].
  apply Hnin. left.
Qed.

(** C4.  Once the entries are collected, if one of them is empty after
    stripping, [_build_recipient_list] raises [NullRecipientError]. *)
Theorem null_recipient_rejected (c c2 : Command) (x : string) :
  collect_recipients c = (c2, Ok tt) ->
  x ∈ recipient_list c2 ->
  strip x = "" ->
  (_build_recipient_list c).2 = Raise NullRecipientError.
Proof.
  intros Hc Hx Hs. rewrite (build_after_collect _ _ Hc). simpl.
  rewrite bool_decide_eq_true_2; [reflexivity|].
  apply list_elem_of_fmap. exists x. split; [symmetry; exact Hs|].
  apply set_list_elem. exact Hx.
Qed.

(** The configuration [users=","], for every iteration order of the set. *)
Example users_comma_rejected :
  _build_recipient_list Samples.only_comma
  = (set_recipient_list [""] Samples.only_comma, Raise NullRecipientError).
Proof.
  assert (Hc : collect_recipients Samples.only_comma =
               (set_recipient_list [""; ""] Samples.only_comma, Ok tt))
    by (vm_compute; reflexivity).
  assert (Hl : set_list [""; ""] = [""]).
  { pose proof (set_list_perm [""; ""]) as Hp.
    replace (remove_dups [""; ""]) with [""] in Hp by (vm_compute; reflexivity).
    symmetry in Hp. apply Permutation_singleton_l in Hp. symmetry. exact Hp. }
  rewrite (build_after_collect _ _ Hc). simpl recipient_list. rewrite Hl. reflexivity.
Qed.

End RecipientClaims.

Lemma group_members_defined a acc groups :
  (forall name, name ∈ groups -> exists m, a !! strip name = Some (PStr m)) ->
  group_members a acc groups = Ok (acc ++ concat (map (members_of a) groups))%list.
Proof.
  revert acc. induction groups as [|gname rest IH]; intros acc Hdef; simpl.
  - rewrite app_nil_r. reflexivity.
  - destruct (Hdef gname) as [m Hm]; [left|].
    unfold members_of at 1. rewrite Hm. simpl.
    rewrite IH, <- app_assoc; [reflexivity|].
    intros name Hin. apply Hdef. right. exact Hin.
Qed.

Lemma group_members_missing a acc groups :
  (forall name v, name ∈ groups -> a !! strip name = Some v -> exists m, v = PStr m) ->
  (exists name, name ∈ groups /\ a !! strip name = None) ->
  exists k, group_members a acc groups = Raise (KeyError k) /\ a !! k = None.
Proof.
  revert acc. induction groups as [|gname rest IH]; intros acc Hty [name [Hin Hnone]].
  - inversion Hin.
  - simpl. destruct (a !! strip gname) as [v|] eqn:E.
    + destruct (Hty gname v) as [m ->]; [left | exact E |]. simpl.
      apply IH.
      * intros n v' Hn. apply Hty. right. exact Hn.
      * apply elem_of_cons in Hin as [-> | Hin]; [congruence|]. eauto.
    + eauto.
Qed.

Lemma collect_with_groups (c : Command) (g : string) (e : list string) :
  args c !! "groups" = Some (PStr g) ->
  args c !! "escrow_users" = Some (PList e) ->
  (configured c "users" = false \/ exists u, args c !! "users" = Some (PStr u)) ->
  (forall name, name ∈ split "," g -> exists m, args c !! strip name = Some (PStr m)) ->
  _parse_group_membership c = Ok (concat (map (members_of (args c)) (split "," g)))
  /\ exists c3, collect_recipients c = (c3, Ok tt)
       /\ forall x, x ∈ concat (map (members_of (args c)) (split "," g)) ->
                    x ∈ recipient_list c3.
Proof.
  intros Hg He Hu Hdef.
  assert (Hp : forall l, _parse_group_membership (set_recipient_list l c) =
                 Ok (concat (map (members_of (args c)) (split "," g)))).
  { intros l. unfold _parse_group_membership. simpl. rewrite Hg. simpl.
    rewrite group_members_defined by exact Hdef. reflexivity. }
  split.
  { specialize (Hp (recipient_list c)). destruct c; exact Hp. }
  unfold collect_recipients, add_escrow_users. rewrite He. simpl.
  unfold add_groups, configured at 1. simpl. rewrite Hg, Hp. simpl.
  unfold add_users, configured. simpl.
  destruct Hu as [Hu | [u Hu]].
  - unfold configured in Hu. destruct (args c !! "users") as [[]|]; try discriminate;
      (eexists; split; [reflexivity|]; simpl; intros x Hx;
       apply elem_of_app; right; exact Hx).
  - rewrite Hu. simpl. eexists; split; [reflexivity|]. simpl. intros x Hx.
    apply elem_of_app; left. apply elem_of_app; right. exact Hx.
Qed.

Section GroupClaims.

Context `{SI : SetIteration}.

(** C5.  With [groups] a string of group names, escrow users a list, users
    absent, [None] or a string, and every referenced key that is configured
    holding a string:
    - if every referenced group key is configured, [_parse_group_membership]
      returns the members of the groups, in order, each group name being
      stripped before it is looked up, and every member, stripped, is in the
      recipient list that [_build_recipient_list] leaves (which returns
      normally or raises [NullRecipientError]);
    - if some referenced group key is not configured, [_build_recipient_list]
      raises [GroupDefinitionError] for a key that is not configured. *)
Theorem group_expansion (c : Command) (g : string) (e : list string) :
  args c !! "groups" = Some (PStr g) ->
  args c !! "escrow_users" = Some (PList e) ->
  (configured c "users" = false \/ exists u, args c !! "users" = Some (PStr u)) ->
  (forall name v, name ∈ split "," g -> args c !! strip name = Some v ->
                  exists m, v = PStr m) ->
  ((forall name, name ∈ split "," g -> is_Some (args c !! strip name)) ->
     _parse_group_membership c = Ok (concat (map (members_of (args c)) (split "," g)))
     /\ ((_build_recipient_list c).2 = Ok tt
         \/ (_build_recipient_list c).2 = Raise NullRecipientError)
     /\ forall name m member,
          name ∈ split "," g -> args c !! strip name = Some (PStr m) ->
          member ∈ split "," m ->
          strip member ∈ recipient_list (_build_recipient_list c).1)
  /\ ((exists name, name ∈ split "," g /\ args c !! strip name = None) ->
      exists k, (_build_recipient_list c).2 = Raise (GroupDefinitionError k)
                /\ args c !! k = None).
Proof.
  intros Hg He Hu Hty. split.
  - intros Hall.
    assert (Hdef : forall name, name ∈ split "," g ->
                     exists m, args c !! strip name = Some (PStr m)).
    { intros name Hin. destruct (Hall name Hin) as [v Hv].
      destruct (Hty name v Hin Hv) as [m ->]. eauto. }
    destruct (collect_with_groups c g e Hg He Hu Hdef) as (Hp & c3 & Hc & Hmem).
    split; [exact Hp|].
    rewrite (build_after_collect _ _ Hc). simpl. split.
    + case_bool_decide; [right | left]; reflexivity.
    + intros name m member Hin Hm Hmember.
      apply list_elem_of_fmap. exists member. split; [reflexivity|].
      apply set_list_elem, Hmem, list_elem_of_In, in_concat.
      exists (members_of (args c) name). split.
      * apply in_map, list_elem_of_In. exact Hin.
      * unfold members_of. rewrite Hm. apply list_elem_of_In. exact Hmember.
  - intros Hmiss.
    destruct (group_members_missing (args c) [] (split "," g) Hty Hmiss) as (k & Hk & Hnone).
    exists k. split; [|exact Hnone].
    unfold _build_recipient_list, collect_recipients, add_escrow_users.
    rewrite He. simpl. unfold add_groups, configured. simpl. rewrite Hg.
    unfold _parse_group_membership. simpl. rewrite Hg. simpl. rewrite Hk. reflexivity.
Qed.

End GroupClaims.

(** [users=","] is a configuration with an empty entry. *)
Lemma null_recipient_rejected_witness :
  (_build_recipient_list (SI := Demo.first_occurrence) Samples.only_comma).2
  = Raise NullRecipientError.
Proof.
  apply (null_recipient_rejected Samples.only_comma
           (set_recipient_list [""; ""] Samples.only_comma) "").
  - vm_compute; reflexivity.
  - simpl. left.
  - reflexivity.
Defined.

Lemma group_expansion_witness :
  ("dave" ∈ recipient_list (_build_recipient_list (SI := Demo.first_occurrence) Samples.team1).1
   /\ "erin" ∈ recipient_list (_build_recipient_list (SI := Demo.first_occurrence) Samples.team1).1)
  /\ exists k, (_build_recipient_list (SI := Demo.first_occurrence) Samples.missing_group).2
               = Raise (GroupDefinitionError k).
Proof.
  split.
  - destruct (group_expansion (SI := Demo.first_occurrence) Samples.team1 "team1" [])
      as [Hfull _].
    + reflexivity.
    + reflexivity.
    + left. reflexivity.
    + intros name v Hin. apply list_elem_of_singleton in Hin. subst name.
      vm_compute. intros [= <-]. eauto.
    + destruct Hfull as (_ & _ & Hmem).
      * intros name Hin. apply list_elem_of_singleton in Hin. subst name.
        vm_compute. eauto.
      * split.
        -- apply (Hmem "team1" "dave,erin" "dave"); [left | reflexivity | left].
        -- apply (Hmem "team1" "dave,erin" "erin");
             [left | reflexivity | right; left].
  - destruct (group_expansion (SI := Demo.first_occurrence) Samples.missing_group "missing" [])
      as [_ Hmiss].
    + reflexivity.
    + reflexivity.
    + left. reflexivity.
    + intros name v Hin. apply list_elem_of_singleton in Hin. subst name.
      vm_compute. discriminate.
    + destruct Hmiss as (k & Hk & _).
      * exists "missing". split; [left | reflexivity].
      * exists k. exact Hk.
Defined.

(** ** Loading a directory ([_load_from_directory]) *)

Lemma endswith_app_l p s suffix : endswith s suffix = true -> endswith (p ++ s) suffix = true.
Proof.
  intros Hs. induction p as [|a p IH]; [exact Hs|].
  rewrite endswith_unfold.
  change (String a p ++ s) with (String a (p ++ s)).
  cbv iota. rewrite IH. destruct (String.eqb _ _); reflexivity.
Qed.

(** A file name that ends with an extension of its artifact type passes the
    test of line 57, for keys too, where the tuple holds the characters of
    [".key"]. *)
Lemma known_extension_matches ft stem ext :
  ext ∈ known_extensions ft ->
  endswith_any (stem ++ ext) (ext_tuple (extensions ft)) = true.
Proof.
  intros Hext. unfold endswith_any. apply existsb_exists.
  destruct ft; simpl in Hext.
  - exists ext. split; [|apply endswith_app].
    apply list_elem_of_In. exact Hext.
  - apply list_elem_of_singleton in Hext. subst ext.
    exists "y". split; [simpl; tauto|].
    apply endswith_app_l. reflexivity.
Qed.

(** [fname.split('.')[0]] is the part of the name before its first dot. *)
Lemma uid_of_filename_prefix fname :
  exists rest,
    fname = uid_of_filename fname ++ rest
    /\ no_dot (uid_of_filename fname) = true
    /\ (rest = "" \/ exists r, rest = String "." r).
Proof.
  unfold uid_of_filename.
  induction fname as [|a fname IH]; simpl.
  - exists "". auto.
  - destruct IH as (rest & Heq & Hnd & Hrest).
    pose proof (split_not_nil "." fname) as Hne.
    destruct (split "." fname) as [|w ws]; [congruence|]. simpl in *.
    destruct (Ascii.eqb a ".") eqn:E; simpl.
    + apply Ascii.eqb_eq in E. subst a. exists (String "." fname). eauto.
    + exists rest. rewrite E, Hnd. simpl. split; [|auto].
      change (String a w ++ rest) with (String a (w ++ rest)). congruence.
Qed.

Lemma uid_of_filename_stem stem ext :
  no_dot stem = true -> (exists r, ext = String "." r) ->
  uid_of_filename (stem ++ ext) = stem.
Proof. intros Hn [r ->]. apply split_dot_head. exact Hn. Qed.

Lemma known_extension_dot ft ext :
  ext ∈ known_extensions ft -> exists r, ext = String "." r.
Proof.
  destruct ft; simpl; intros Hin;
    repeat (apply elem_of_cons in Hin as [-> | Hin]; [eauto|]); inversion Hin.
Qed.

Lemma path_field_set ft p r : path_field ft (set_path_field ft p r) = Some p.
Proof. destruct ft; reflexivity. Qed.

Lemma path_field_new ft u p : path_field ft (new_identity ft u p) = Some p.
Proof. destruct ft; reflexivity. Qed.

Lemma uid_new ft u p : uid (new_identity ft u p) = u.
Proof. destruct ft; reflexivity. Qed.

(** One file touches the record of its own uid and no other. *)
Lemma load_entry_other path ft m fname k :
  k ≠ uid_of_filename fname -> load_entry path ft m fname !! k = m !! k.
Proof.
  intros Hk. unfold load_entry.
  destruct (endswith_any _ _); [|reflexivity].
  destruct (m !! uid_of_filename fname).
  - rewrite lookup_insert_ne by congruence. reflexivity.
  - rewrite uid_new, lookup_insert_ne by congruence. reflexivity.
Qed.

Lemma load_entry_match path ft m fname :
  endswith_any fname (ext_tuple (extensions ft)) = true ->
  exists r, load_entry path ft m fname !! uid_of_filename fname = Some r
            /\ path_field ft r = Some (os_path_join path fname).
Proof.
  intros Hm. unfold load_entry. rewrite Hm.
  destruct (m !! uid_of_filename fname).
  - rewrite lookup_insert_eq. eexists. split; [reflexivity | apply path_field_set].
  - rewrite uid_new, lookup_insert_eq. eexists. split; [reflexivity | apply path_field_new].
Qed.

Lemma same_but_path_refl ft r : same_but_path ft r r.
Proof. unfold same_but_path. auto. Qed.

Lemma same_but_path_trans ft r1 r2 r3 :
  same_but_path ft r1 r2 -> same_but_path ft r2 r3 -> same_but_path ft r1 r3.
Proof.
  unfold same_but_path. intros (?&?&?&?&?) (?&?&?&?&?).
  repeat split; try congruence. auto.
Qed.

Lemma same_but_path_set ft p r : same_but_path ft r (set_path_field ft p r).
Proof. unfold same_but_path. destruct ft; simpl; repeat split; eauto. Qed.

Lemma load_entry_keeps path ft m fname k r :
  m !! k = Some r ->
  exists r', load_entry path ft m fname !! k = Some r' /\ same_but_path ft r r'.
Proof.
  intros Hk. unfold load_entry.
  destruct (endswith_any _ _); [|eauto using same_but_path_refl].
  destruct (decide (k = uid_of_filename fname)) as [->|Hne].
  - rewrite Hk, lookup_insert_eq. eauto using same_but_path_set.
  - destruct (m !! uid_of_filename fname).
    + rewrite lookup_insert_ne by congruence. eauto using same_but_path_refl.
    + rewrite uid_new, lookup_insert_ne by congruence. eauto using same_but_path_refl.
Qed.

Lemma load_entry_keyed path ft m fname :
  keyed_by_uid m -> keyed_by_uid (load_entry path ft m fname).
Proof.
  intros Hm k r. unfold load_entry.
  destruct (endswith_any _ _); [|apply Hm].
  destruct (m !! uid_of_filename fname) as [r0|] eqn:E.
  - destruct (decide (k = uid_of_filename fname)) as [->|Hne].
    + rewrite lookup_insert_eq. intros [= <-].
      specialize (Hm _ _ E). destruct ft; exact Hm.
    + rewrite lookup_insert_ne by congruence. apply Hm.
  - rewrite uid_new.
    destruct (decide (k = uid_of_filename fname)) as [->|Hne].
    + rewrite lookup_insert_eq. intros [= <-]. apply uid_new.
    + rewrite lookup_insert_ne by congruence. apply Hm.
Qed.

Lemma load_all_keeps path ft names m k r :
  m !! k = Some r ->
  exists r', fold_left (load_entry path ft) names m !! k = Some r' /\ same_but_path ft r r'.
Proof.
  revert m r. induction names as [|x names IH]; intros m r Hk; simpl.
  - eauto using same_but_path_refl.
  - destruct (load_entry_keeps path ft m x k r Hk) as (r1 & H1 & S1).
    destruct (IH _ _ H1) as (r2 & H2 & S2).
    eauto using same_but_path_trans.
Qed.

Lemma load_all_keyed path ft names m :
  keyed_by_uid m -> keyed_by_uid (fold_left (load_entry path ft) names m).
Proof.
  revert m. induction names as [|x names IH]; intros m Hm; simpl; [exact Hm|].
  apply IH, load_entry_keyed, Hm.
Qed.

(** After the loop, the record of a matching file holds the path of the
    last file of the listing with that uid. *)
Lemma load_all_lookup path ft names m fname :
  fname ∈ names ->
  endswith_any fname (ext_tuple (extensions ft)) = true ->
  exists r fname',
    fold_left (load_entry path ft) names m !! uid_of_filename fname = Some r
    /\ fname' ∈ names
    /\ uid_of_filename fname' = uid_of_filename fname
    /\ path_field ft r = Some (os_path_join path fname').
Proof.
  intros Hin Hm. induction names as [|x names IH] using rev_ind; [inversion Hin|].
  rewrite fold_left_app. simpl.
  destruct (decide (endswith_any x (ext_tuple (extensions ft)) = true
                    /\ uid_of_filename x = uid_of_filename fname)) as [[Hx Hu]|Hno].
  - destruct (load_entry_match path ft (fold_left (load_entry path ft) names m) x Hx)
      as (r & Hr & Hp).
    exists r, x. rewrite <- Hu. repeat split; try assumption.
    apply elem_of_app. right. left.
  - assert (Hin' : fname ∈ names).
    { apply elem_of_app in Hin as [Hin|Hin]; [exact Hin|].
      apply list_elem_of_singleton in Hin. subst x. tauto. }
    destruct (IH Hin') as (r & fname' & Hr & Hf & Hu & Hp).
    exists r, fname'. repeat split; try assumption.
    + rewrite <- Hr. unfold load_entry at 1.
      destruct (endswith_any x _) eqn:Ex; [|reflexivity].
      assert (Hne : uid_of_filename fname ≠ uid_of_filename x) by (intros Heq; apply Hno; auto).
      destruct (fold_left _ _ _ !! uid_of_filename x).
      * rewrite lookup_insert_ne by congruence. reflexivity.
      * rewrite uid_new, lookup_insert_ne by congruence. reflexivity.
    + apply elem_of_app. left. exact Hf.
Qed.

Section DirectoryClaims.

Context `{FS : FileSystem}.

(** C6 (amended).  When the directory can be listed, [_load_from_directory]
    returns normally and, for each file of the listing whose name ends with
    an extension of the requested artifact type, the database then holds a
    record under the uid of that file, with that uid, whose path for the
    artifact type is the path of a file of the listing with the same uid;
    the file touches no record under another uid.  The uid is the part of
    the file name before its first dot; it is the file name with its
    extension stripped when that has no dot in it. *)
Theorem load_from_directory_identities (f : fs) (db : IdentityDB) (path : string)
    (ft : filetype) (names : list string) (fname stem ext : string) :
  listdir f path = inr names ->
  keyed_by_uid (iddb db) ->
  fname ∈ names ->
  ext ∈ known_extensions ft ->
  fname = stem ++ ext ->
  (_load_from_directory f db path ft).2 = Ok tt
  /\ (exists r fname',
        iddb (_load_from_directory f db path ft).1 !! uid_of_filename fname = Some r
        /\ uid r = uid_of_filename fname
        /\ fname' ∈ names
        /\ uid_of_filename fname' = uid_of_filename fname
        /\ path_field ft r = Some (os_path_join path fname'))
  /\ (forall m k, k ≠ uid_of_filename fname ->
                  load_entry path ft m fname !! k = m !! k)
  /\ (exists rest, fname = uid_of_filename fname ++ rest
                   /\ no_dot (uid_of_filename fname) = true
                   /\ exists r, rest = String "." r)
  /\ (no_dot stem = true -> uid_of_filename fname = stem).
Proof.
  intros Hl Hkeyed Hin Hext ->.
  unfold _load_from_directory. rewrite Hl. simpl.
  pose proof (known_extension_matches ft stem ext Hext) as Hm.
  destruct (known_extension_dot ft ext Hext) as [e He].
  split; [reflexivity|]. split; [|split; [|split]].
  - destruct (load_all_lookup path ft names (iddb db) _ Hin Hm)
      as (r & fname' & Hr & Hf & Hu & Hp).
    exists r, fname'. repeat split; try assumption.
    apply (load_all_keyed path ft names _ Hkeyed _ _ Hr).
  - intros m k. apply load_entry_other.
  - destruct (uid_of_filename_prefix (stem ++ ext)) as (rest & Heq & Hnd & [-> | Hr]).
    + exfalso. subst ext.
      assert (Hd : no_dot (stem ++ String "." e) = false).
      { clear. induction stem as [|a stem IH]; [reflexivity|].
        change (String a stem ++ String "." e) with (String a (stem ++ String "." e)).
        simpl. rewrite IH. apply andb_false_r. }
      rewrite Heq in Hd at 1.
      replace (uid_of_filename (stem ++ String "." e) ++ "")
        with (uid_of_filename (stem ++ String "." e)) in Hd; [congruence|].
      generalize (uid_of_filename (stem ++ String "." e)). clear.
      intros s. induction s as [|a s IH]; [reflexivity|].
      change (String a s ++ "") with (String a (s ++ "")). congruence.
    + exists rest. auto.
  - intros Hn. apply uid_of_filename_stem; eauto.
Qed.

End DirectoryClaims.

(** C6 as stated fails for a file name with a dot in its base name: loading
    [john.doe.crt] leaves no identity whose uid is [john.doe], the file name
    with its extension stripped; the identity is [john]. *)
Lemma uid_is_not_extension_stripped :
  let db' := (_load_from_directory (FS := Demo.mem_fs) Samples.dotted_fs IdentityDB_init "/certs" certificate).1 in
  endswith "john.doe.crt" ".crt" = true
  /\ strip_extension certificate "john.doe.crt" = "john.doe"
  /\ iddb db' = {[ "john" := new_identity certificate "john" "/certs/john.doe.crt" ]}
  /\ ~ exists k r, iddb db' !! k = Some r
                   /\ uid r = strip_extension certificate "john.doe.crt".
Proof.
  assert (Hdb : iddb (_load_from_directory (FS := Demo.mem_fs) Samples.dotted_fs IdentityDB_init
                        "/certs" certificate).1
                = {[ "john" := new_identity certificate "john" "/certs/john.doe.crt" ]})
    by (vm_compute; reflexivity).
  simpl. rewrite Hdb.
  split; [reflexivity|]. split; [reflexivity|]. split; [reflexivity|].
  intros (k & r & Hk & Hu).
  apply lookup_singleton_Some in Hk as [_ <-].
  vm_compute in Hu. discriminate.
Qed.

Lemma load_from_directory_identities_witness :
  exists r fname',
    iddb (_load_from_directory (FS := Demo.mem_fs) Samples.abc_fs IdentityDB_init "/certs" certificate).1
      !! uid_of_filename "b.cert" = Some r
    /\ uid r = uid_of_filename "b.cert"
    /\ fname' ∈ ["a.crt"; "b.cert"; "c.key"]
    /\ uid_of_filename fname' = uid_of_filename "b.cert"
    /\ path_field certificate r = Some (os_path_join "/certs" fname').
Proof.
  apply (load_from_directory_identities (FS := Demo.mem_fs) Samples.abc_fs IdentityDB_init
           "/certs" certificate ["a.crt"; "b.cert"; "c.key"] "b.cert" "b" ".cert").
  - reflexivity.
  - intros k r Hk. vm_compute in Hk. discriminate.
  - right; left.
  - left.
  - reflexivity.
Defined.

(** The directory of the specification's example: [a.crt], [b.cert] and
    [c.key], loaded for certificates and then for keys, on any file system. *)
Lemma load_abc_directory `{FS : FileSystem} (f : fs) (d : string) :
  listdir f d = inr ["a.crt"; "b.cert"; "c.key"] ->
  isdir f d = true ->
  iddb (load_keys_from_directory f (_load_from_directory f IdentityDB_init d certificate).1 d).1
  = {[ "a" := {| uid := "a"; certificate_path := Some (os_path_join d "a.crt");
                 key_path := None; id_cabundle := None; certs := None |};
       "b" := {| uid := "b"; certificate_path := Some (os_path_join d "b.cert");
                 key_path := None; id_cabundle := None; certs := None |};
       "c" := {| uid := "c"; certificate_path := None;
                 key_path := Some (os_path_join d "c.key");
                 id_cabundle := None; certs := None |} ]}.
Proof.
  intros Hl Hd. unfold load_keys_from_directory, _load_from_directory.
  rewrite Hd, !Hl. simpl fst.
  vm_compute. reflexivity.
Qed.

(** A key and two certificates of one uid from three directories: the key
    path stays, the second certificate path replaces the first. *)
Example carol_accumulates :
  let db1 := (load_keys_from_directory (FS := Demo.mem_fs) Samples.carol_fs
                IdentityDB_init "/private").1 in
  let db2 := (_load_from_directory (FS := Demo.mem_fs) Samples.carol_fs db1
                "/certs" certificate).1 in
  let db3 := (_load_from_directory (FS := Demo.mem_fs) Samples.carol_fs db2
                "/more" certificate).1 in
  iddb db2 = {[ "carol" := {| uid := "carol"; certificate_path := Some "/certs/carol.crt";
                              key_path := Some "/private/carol.key";
                              id_cabundle := None; certs := None |} ]}
  /\ iddb db3 = {[ "carol" := {| uid := "carol"; certificate_path := Some "/more/carol.cert";
                                 key_path := Some "/private/carol.key";
                                 id_cabundle := None; certs := None |} ]}.
Proof. split; vm_compute; reflexivity. Qed.

(** ** Verification ([verify_identity]) *)

Section Verification.

Context `{FS : FileSystem} `{CP : CryptoProvider}.

Lemma append_loop {A B : Type} (g : A -> B) (l : list A) (acc : list B) :
  fold_left (fun (acc : list B) x => (acc ++ [g x])%list) l acc = (acc ++ map g l)%list.
Proof.
  revert acc. induction l as [|x l IH]; intros acc; simpl.
  - rewrite app_nil_r. reflexivity.
  - rewrite IH, <- app_assoc. reflexivity.
Qed.

Lemma verify_identity_absent f db identity results :
  iddb db !! identity = None ->
  verify_identity f db identity results
  = (db, Raise (CliArgumentError (not_in_database identity))).
Proof. intros Hn. unfold verify_identity. rewrite Hn. reflexivity. Qed.

Lemma verify_identity_cabundle f db identity results :
  cabundle (verify_identity f db identity results).1 = cabundle db.
Proof.
  unfold verify_identity. destruct (iddb db !! identity) as [r|]; [|reflexivity].
  simpl. destruct (certificate_path r); [|reflexivity].
  destruct (parse_file f s); reflexivity.
Qed.

Lemma verify_identity_other f db identity results k :
  k ≠ identity ->
  iddb (verify_identity f db identity results).1 !! k = iddb db !! k.
Proof.
  intros Hk. unfold verify_identity. destruct (iddb db !! identity) as [r|]; [|reflexivity].
  simpl. destruct (certificate_path r); [destruct (parse_file f s)|]; simpl;
    rewrite lookup_insert_ne by congruence; reflexivity.
Qed.

Lemma verify_identity_record f db identity results :
  iddb (verify_identity f db identity results).1 !! identity
  = verified_record f (cabundle db) (iddb db !! identity).
Proof.
  unfold verify_identity, verified_record.
  destruct (iddb db !! identity) as [r|] eqn:E; [|exact E].
  simpl. destruct (certificate_path r); [destruct (parse_file f s)|]; simpl;
    rewrite lookup_insert_eq; try reflexivity.
  rewrite append_loop. reflexivity.
Qed.

Lemma verified_record_twice f bundle o :
  verified_record f bundle (verified_record f bundle o) = verified_record f bundle o.
Proof.
  destruct o as [r|]; [|reflexivity]. unfold verified_record.
  destruct (certificate_path r) as [p|] eqn:Ep.
  - destruct (parse_file f p) eqn:Ef; simpl; rewrite Ep, Ef; reflexivity.
  - simpl. rewrite Ep. reflexivity.
Qed.

(** The database after [verify_identity] is the database with the
    identity's record replaced by its verified record. *)
Lemma verify_identity_state f db identity results :
  (verify_identity f db identity results).1
  = set_iddb (partial_alter (verified_record f (cabundle db)) identity (iddb db)) db.
Proof.
  destruct db as [cab m]. unfold set_iddb. simpl.
  pose proof (verify_identity_cabundle f {| cabundle := cab; iddb := m |} identity results) as Hc.
  pose proof (verify_identity_record f {| cabundle := cab; iddb := m |} identity results) as Hr.
  pose proof (fun k => verify_identity_other f {| cabundle := cab; iddb := m |} identity results k)
    as Ho.
  destruct (verify_identity f {| cabundle := cab; iddb := m |} identity results).1 as [cab' m'].
  simpl in *. subst cab'. f_equal. apply map_eq. intros k.
  destruct (decide (k = identity)) as [->|Hne].
  - rewrite lookup_partial_alter_eq. exact Hr.
  - rewrite lookup_partial_alter_ne by congruence. apply Ho. exact Hne.
Qed.

Lemma verify_identity_outcome f db identity results :
  (verify_identity f db identity results).2 = verify_outcome f identity (iddb db !! identity).
Proof.
  unfold verify_identity, verify_outcome.
  destruct (iddb db !! identity) as [r|]; [|reflexivity].
  simpl. destruct (certificate_path r); [destruct (parse_file f s)|]; reflexivity.
Qed.

Lemma verify_outcome_verified f bundle identity o :
  verify_outcome f identity (verified_record f bundle o) = verify_outcome f identity o.
Proof.
  destruct o as [r|]; [|reflexivity]. unfold verified_record, verify_outcome.
  destruct (certificate_path r) as [p|] eqn:Ep.
  - destruct (parse_file f p) eqn:Ef; simpl; rewrite Ep, Ef; reflexivity.
  - simpl. rewrite Ep. reflexivity.
Qed.

(** C8.  For an identity of the store that has a certificate path, a second
    [verify_identity] on the state the first one left, with the same file
    system, leaves the same state and has the same outcome; when the
    certificate file can be parsed, both calls return normally and the
    [certs] of the identity are the records derived from the blocks of the
    file, once each. *)
Theorem verify_identity_idempotent (f : fs) (db : IdentityDB) (identity : string)
    (r : Identity) (p : string) (results1 results2 : pyval) :
  iddb db !! identity = Some r ->
  certificate_path r = Some p ->
  verify_identity f (verify_identity f db identity results1).1 identity results2
  = verify_identity f db identity results1
  /\ forall blocks,
       parse_file f p = inr blocks ->
       (verify_identity f db identity results1).2 = Ok tt
       /\ exists r',
            iddb (verify_identity f (verify_identity f db identity results1).1
                    identity results2).1 !! identity = Some r'
            /\ certs r' = Some (map (fun c => make_cert_dict c (cabundle db)) blocks).
Proof.
  intros Hr Hp. split.
  - apply injective_projections.
    + rewrite (verify_identity_state f (verify_identity f db identity results1).1).
      rewrite verify_identity_cabundle.
      rewrite (verify_identity_state f db identity results1) at 2 3.
      unfold set_iddb. simpl. f_equal.
      apply map_eq. intros k. destruct (decide (k = identity)) as [->|Hne].
      * rewrite lookup_partial_alter_eq, verify_identity_record.
        rewrite verified_record_twice, lookup_partial_alter_eq. reflexivity.
      * rewrite !lookup_partial_alter_ne by congruence.
        apply verify_identity_other. exact Hne.
    + rewrite !verify_identity_outcome, verify_identity_record.
      apply verify_outcome_verified.
  - intros blocks Hb. split.
    + rewrite verify_identity_outcome, Hr. simpl. rewrite Hp, Hb. reflexivity.
    + rewrite !verify_identity_record, verify_identity_cabundle, verified_record_twice, Hr.
      simpl. rewrite Hp, Hb. eexists. split; reflexivity.
Qed.

(** C10 (amended).  For an identity of the store without a certificate
    path, [verify_identity] raises [CliArgumentError] after it has written
    the store's [cabundle] and an empty [certs] list to the identity's
    record, whether it had a [certs] list or not; nothing else changes.  The
    state after the error differs from the state before the call unless the
    record already held that [cabundle] and an empty [certs] list. *)
Theorem verify_identity_without_certificate (f : fs) (db : IdentityDB)
    (identity : string) (r : Identity) (results : pyval) :
  iddb db !! identity = Some r ->
  certificate_path r = None ->
  (verify_identity f db identity results).2
    = Raise (CliArgumentError (not_in_database identity))
  /\ iddb (verify_identity f db identity results).1 !! identity
     = Some {| uid := uid r; certificate_path := None; key_path := key_path r;
               id_cabundle := Some (cabundle db); certs := Some [] |}
  /\ (forall k, k ≠ identity ->
                iddb (verify_identity f db identity results).1 !! k = iddb db !! k)
  /\ cabundle (verify_identity f db identity results).1 = cabundle db
  /\ ((verify_identity f db identity results).1 ≠ db
      <-> ~ (id_cabundle r = Some (cabundle db) /\ certs r = Some [])).
Proof.
  intros Hr Hp.
  assert (Hrec : iddb (verify_identity f db identity results).1 !! identity
                 = Some {| uid := uid r; certificate_path := None; key_path := key_path r;
                           id_cabundle := Some (cabundle db); certs := Some [] |}).
  { rewrite verify_identity_record, Hr. simpl. rewrite Hp.
    unfold set_certs, set_cabundle_field. simpl. rewrite Hp. reflexivity. }
  split; [|split; [exact Hrec | split; [|split]]].
  - rewrite verify_identity_outcome, Hr. simpl. rewrite Hp. reflexivity.
  - intros k. apply verify_identity_other.
  - apply verify_identity_cabundle.
  - assert (Heq : (verify_identity f db identity results).1 = db
                  <-> id_cabundle r = Some (cabundle db) /\ certs r = Some []).
    { split.
      - intros He. rewrite He, Hr in Hrec. injection Hrec as ->. simpl. auto.
      - intros [Hc Hs]. rewrite verify_identity_state.
        destruct db as [cab m]. unfold set_iddb. simpl in *. f_equal.
        apply map_eq. intros k. destruct (decide (k = identity)) as [->|Hne].
        + rewrite lookup_partial_alter_eq, Hr. simpl. rewrite Hp. f_equal.
          destruct r; simpl in *; subst. reflexivity.
        + rewrite lookup_partial_alter_ne by congruence. reflexivity. }
    tauto.
Qed.

End Verification.

Lemma verify_identity_idempotent_witness :
  verify_identity (FS := Demo.mem_fs) (CP := Demo.plain_crypto) Samples.zoe_fs
    (verify_identity (FS := Demo.mem_fs) (CP := Demo.plain_crypto) Samples.zoe_fs
       Samples.zoe_db "zoe" (PList [])).1 "zoe" (PList [])
  = verify_identity (FS := Demo.mem_fs) (CP := Demo.plain_crypto) Samples.zoe_fs
      Samples.zoe_db "zoe" (PList []).
Proof.
  apply (verify_identity_idempotent (FS := Demo.mem_fs) (CP := Demo.plain_crypto)
           Samples.zoe_fs Samples.zoe_db "zoe"
           (new_identity certificate "zoe" "/certs/zoe.crt") "/certs/zoe.crt").
  - vm_compute. reflexivity.
  - reflexivity.
Defined.

(** C10 as stated fails on a second call: [carol] has a key path only; the
    first [verify_identity] fails and leaves her record with the [cabundle]
    and an empty [certs] list; the second fails too and leaves the store as
    it found it. *)
Lemma failed_verification_unchanged_store :
  let db1 := (verify_identity (FS := Demo.mem_fs) (CP := Demo.plain_crypto) Samples.carol_fs
                Samples.keys_only "carol" (PList [])).1 in
  let second := verify_identity (FS := Demo.mem_fs) (CP := Demo.plain_crypto) Samples.carol_fs
                  db1 "carol" (PList []) in
  iddb db1 !! "carol"
    = Some {| uid := "carol"; certificate_path := None;
              key_path := Some "/private/carol.key";
              id_cabundle := Some "ca-bundle"; certs := Some [] |}
  /\ second.2 = Raise (CliArgumentError (not_in_database "carol"))
  /\ second.1 = db1.
Proof. repeat split; vm_compute; reflexivity. Qed.

Lemma verify_identity_without_certificate_witness :
  (verify_identity (FS := Demo.mem_fs) (CP := Demo.plain_crypto) Samples.carol_fs
     Samples.keys_only "carol" (PList [])).1 ≠ Samples.keys_only.
Proof.
  destruct (verify_identity_without_certificate (FS := Demo.mem_fs) (CP := Demo.plain_crypto)
              Samples.carol_fs Samples.keys_only "carol"
              (new_identity key "carol" "/private/carol.key") (PList []))
    as (_ & _ & _ & _ & Hiff).
  - vm_compute. reflexivity.
  - reflexivity.
  - apply Hiff. intros [Hc _]. vm_compute in Hc. discriminate.
Defined.

(** ** Verification on load ([load_certs_from_directory]) *)

Section VerifyOnLoad.

Context `{FS : FileSystem} `{CP : CryptoProvider} `{CN : Connectors}.

Lemma thread_run_eq f db identity :
  thread_run f db identity = (verify_identity f db identity (PList [])).1.
Proof. reflexivity. Qed.

(** The threads of a list of distinct identities, run in the order of the
    list: each identity of the list ends with its verified record, computed
    from the record it had at the start. *)
Lemma threads_lookup f keys db k :
  NoDup keys ->
  cabundle (fold_left (thread_run f) keys db) = cabundle db
  /\ iddb (fold_left (thread_run f) keys db) !! k
     = if bool_decide (k ∈ keys)
       then verified_record f (cabundle db) (iddb db !! k)
       else iddb db !! k.
Proof.
  revert db. induction keys as [|x keys IH]; intros db Hnd; simpl.
  - split; reflexivity.
  - apply NoDup_cons in Hnd as [Hx Hnd].
    destruct (IH (thread_run f db x) Hnd) as [Hc Hl].
    split; [rewrite Hc, thread_run_eq; apply verify_identity_cabundle|].
    rewrite Hl, !thread_run_eq, verify_identity_cabundle.
    destruct (decide (k = x)) as [->|Hne].
    + rewrite (bool_decide_eq_false_2 _ Hx).
      rewrite bool_decide_eq_true_2 by left.
      apply verify_identity_record.
    + rewrite verify_identity_other by exact Hne.
      destruct (decide (k ∈ keys)) as [Hin|Hnin].
      * rewrite !bool_decide_eq_true_2; [reflexivity | right; exact Hin | exact Hin].
      * rewrite !bool_decide_eq_false_2; [reflexivity | | exact Hnin].
        intros Hin. apply elem_of_cons in Hin as [?|?]; tauto.
Qed.

Lemma keys_NoDup (m : gmap string Identity) : NoDup (map fst (map_to_list m)).
Proof. apply NoDup_fst_map_to_list. Qed.

Lemma keys_elem (m : gmap string Identity) k :
  k ∈ map fst (map_to_list m) <-> is_Some (m !! k).
Proof.
  rewrite list_elem_of_fmap. split.
  - intros ([k' r] & -> & Hin). apply elem_of_map_to_list in Hin. simpl. eauto.
  - intros [r Hr]. exists (k, r). split; [reflexivity|].
    apply elem_of_map_to_list. exact Hr.
Qed.

Lemma verify_all_lookup f db k :
  iddb (verify_all f db) !! k = verified_record f (cabundle db) (iddb db !! k).
Proof.
  unfold verify_all.
  destruct (threads_lookup f (map fst (map_to_list (iddb db))) db k (keys_NoDup _)) as [_ ->].
  case_bool_decide as Hin; [reflexivity|].
  destruct (iddb db !! k) eqn:E; [|reflexivity].
  exfalso. apply Hin, keys_elem. eauto.
Qed.

Lemma verify_all_cabundle f db : cabundle (verify_all f db) = cabundle db.
Proof.
  unfold verify_all.
  apply (threads_lookup f (map fst (map_to_list (iddb db))) db "" (keys_NoDup _)).
Qed.

(** The threads write disjoint records: run one after the other in any
    order, they leave the same database. *)
Lemma verify_all_any_order f db order :
  order ≡ₚ map fst (map_to_list (iddb db)) ->
  fold_left (thread_run f) order db = verify_all f db.
Proof.
  intros Hp.
  assert (Hnd : NoDup order) by (rewrite Hp; apply keys_NoDup).
  pose proof (fun k => threads_lookup f order db k Hnd) as Ho.
  pose proof (verify_all_cabundle f db) as Hc.
  pose proof (verify_all_lookup f db) as Hl.
  destruct (fold_left (thread_run f) order db) as [cab1 m1].
  destruct (verify_all f db) as [cab2 m2]. simpl in *.
  f_equal.
  - destruct (Ho "") as [-> _]. congruence.
  - apply map_eq. intros k. destruct (Ho k) as [_ ->]. rewrite Hl.
    case_bool_decide as Hin; [reflexivity|].
    destruct (iddb db !! k) eqn:E; [|reflexivity].
    exfalso. apply Hin. rewrite Hp. apply keys_elem. eauto.
Qed.

(** C1 (amended).  When the loading steps of [load_certs_from_directory]
    succeed, the call with [verify_on_load] returns normally, whatever the
    verifications do: it reports no verification error.  It leaves the file
    system and the store's [cabundle] as loading left them, and for every
    identity the record that [verify_identity] leaves for that identity on
    the loaded database: every identity of the store is verified, and a
    failure for one of them stops neither the others nor the call. *)
Theorem verify_on_load_reports_no_error (w : World) (certpath : option string)
    (connectmap : option (list (string * pyval))) (nocache : bool) :
  (load_certs_from_directory w certpath false connectmap nocache).2 = Ok tt ->
  let loaded := (load_certs_from_directory w certpath false connectmap nocache).1 in
  let result := load_certs_from_directory w certpath true connectmap nocache in
  result.2 = Ok tt
  /\ w_fs result.1 = w_fs loaded
  /\ w_calls result.1 = w_calls loaded
  /\ cabundle (w_db result.1) = cabundle (w_db loaded)
  /\ forall identity,
       iddb (w_db result.1) !! identity
       = iddb (verify_identity (w_fs loaded) (w_db loaded) identity (PList [])).1 !! identity.
Proof.
  unfold load_certs_from_directory.
  destruct (if nonempty_map connectmap then _ else _) as [w1 [[]|e]]; simpl;
    [|discriminate].
  destruct (if nonempty_str certpath then _ else _) as [w2 [[]|e]]; simpl;
    [|discriminate].
  intros _. repeat split.
  - apply verify_all_cabundle.
  - intros identity. rewrite verify_all_lookup, verify_identity_record. reflexivity.
Qed.

End VerifyOnLoad.

(** C1 as stated fails: [carol] has no certificate path, her verification
    raises [CliArgumentError], and [load_certs_from_directory] with
    [verify_on_load] returns normally. *)
Lemma verification_error_not_reported :
  (verify_identity (FS := Demo.mem_fs) (CP := Demo.plain_crypto) Samples.carol_fs
     Samples.keys_only "carol" (PList [])).2
  = Raise (CliArgumentError (not_in_database "carol"))
  /\ (load_certs_from_directory (FS := Demo.mem_fs) (CP := Demo.plain_crypto)
        (CN := Demo.one_connector) Samples.keys_only_world None true None false).2
     = Ok tt.
Proof. split; vm_compute; reflexivity. Qed.

Lemma verify_on_load_reports_no_error_witness :
  (load_certs_from_directory (FS := Demo.mem_fs) (CP := Demo.plain_crypto)
     (CN := Demo.one_connector) Samples.keys_only_world None true None false).2 = Ok tt.
Proof.
  apply (verify_on_load_reports_no_error (FS := Demo.mem_fs) (CP := Demo.plain_crypto)
           (CN := Demo.one_connector) Samples.keys_only_world None None false).
  reflexivity.
Defined.

(** ** Validation of the recipients ([_validate_identities]) *)

(** C2 (evaluation at the failing inputs).  With a recipient in the list,
    [_validate_identities] raises [TypeError] at the call of line 262, which
    does not pass [results]: no recipient is looked up and the operator is
    not checked. *)
Theorem validate_identities_type_error `{FS : FileSystem} `{CP : CryptoProvider}
    (f : fs) (c : Command) (recipient : string) (rest : list string) :
  recipient_list c = recipient :: rest ->
  _validate_identities f c = (c, Raise TypeError).
Proof.
  intros Hl. unfold _validate_identities. rewrite Hl. simpl.
  destruct c. reflexivity.
Qed.

Lemma validate_identities_type_error_witness :
  _validate_identities (FS := Demo.mem_fs) (CP := Demo.plain_crypto)
    Demo.empty_fs Samples.alice_unknown
  = (Samples.alice_unknown, Raise TypeError).
Proof.
  apply (validate_identities_type_error (FS := Demo.mem_fs) (CP := Demo.plain_crypto)
           Demo.empty_fs Samples.alice_unknown "alice" []).
  reflexivity.
Defined.

(** ** The connector cache ([_load_certs_from_external]) *)

Section ConnectorCache.

Context `{FS : FileSystem} `{CN : Connectors}.

Local Open Scope list_scope.

Lemma for_each_app {S A : Type} (body : S -> A -> S * outcome unit) (s : S) (l1 l2 : list A) :
  for_each body s (l1 ++ l2) = for_each body s l1 >>> (fun s' => for_each body s' l2).
Proof.
  revert s. induction l1 as [|x l1 IH]; intros s; simpl.
  - reflexivity.
  - destruct (body s x) as [s1 [[]|e]]; simpl; [apply IH | reflexivity].
Qed.

Lemma ensure_dir_calls dirname w : w_calls (ensure_dir dirname w).1 = w_calls w.
Proof.
  unfold ensure_dir. destruct (path_exists _ _); [reflexivity|].
  destruct (makedirs _ _); reflexivity.
Qed.

Lemma write_certs_calls dirname found w :
  w_calls (for_each (write_cert dirname) w found).1 = w_calls w.
Proof.
  revert w. induction found as [|[name certlist] found IH]; intros w; simpl; [reflexivity|].
  destruct (write_text _ _ _); simpl; [reflexivity|].
  rewrite IH. reflexivity.
Qed.

(** [fetch_certs] is the one place where a connector is invoked. *)
Lemma fetch_certs_calls key0 value dirname w :
  w_calls (fetch_certs key0 value dirname w).1 = w_calls w ++ [key0].
Proof.
  unfold fetch_certs. destruct (list_certificates _ _ _); [|reflexivity].
  rewrite write_certs_calls. reflexivity.
Qed.

Lemma then_load_calls (r : World * outcome unit) dirname :
  w_calls (r >>> (fun w2 =>
             lift_db w2 (_load_from_directory (w_fs w2) (w_db w2) dirname certificate))).1
  = w_calls r.1.
Proof. destruct r as [w2 [[]|e]]; reflexivity. Qed.

Lemma calls_not_extended (l : list string) x : l ≠ l ++ [x].
Proof.
  intros H. apply (f_equal length) in H. rewrite length_app in H. simpl in H. lia.
Qed.

(** C9.  Take the entry [(key0, value)] of the iterated connect map, the
    world [w_i] in which the loop reaches it, and the world [w_d] after its
    cache directory [dirname] has been made sure to exist.  If the test of
    line 38 does not fail (either [nocache] holds or the directory can be
    listed), then in this iteration
    - the connector of the entry is invoked if and only if [nocache] holds
      or the cache directory is empty;
    - when [nocache] does not hold and the directory has entries, the
      iteration is exactly the loading of the cache directory as a
      certificate directory: no connector is invoked and no file written;
    and the whole call is this iteration followed by the later entries. *)
Theorem connector_cache_bypass (nocache : bool) (connection_map : list (string * pyval))
    (tmp : string) (pre post : list (string * pyval)) (key0 : string) (value : pyval)
    (w w_i w_d : World) :
  cache_root connection_map = (PStr tmp, pre ++ (key0, value) :: post) ->
  for_each (external_entry nocache (PStr tmp)) w pre = (w_i, Ok tt) ->
  ensure_dir (os_path_join tmp key0) w_i = (w_d, Ok tt) ->
  (nocache = true \/ exists l, listdir (w_fs w_d) (os_path_join tmp key0) = inr l) ->
  let dirname := os_path_join tmp key0 in
  let step := external_entry nocache (PStr tmp) w_i (key0, value) in
  (w_calls step.1 = w_calls w_i ++ [key0]
     <-> nocache = true \/ listdir (w_fs w_d) dirname = inr [])
  /\ (w_calls step.1 = w_calls w_i
        <-> nocache = false /\ exists x l, listdir (w_fs w_d) dirname = inr (x :: l))
  /\ (nocache = false ->
      forall x l, listdir (w_fs w_d) dirname = inr (x :: l) ->
        step = lift_db w_d (_load_from_directory (w_fs w_d) (w_db w_d) dirname certificate)
        /\ w_fs step.1 = w_fs w_d)
  /\ _load_certs_from_external w connection_map nocache
     = step >>> (fun w' => for_each (external_entry nocache (PStr tmp)) w' post).
Proof.
  intros Hroot Hpre Hens Hcheck dirname step.
  assert (Hcd : w_calls w_d = w_calls w_i).
  { pose proof (ensure_dir_calls (os_path_join tmp key0) w_i) as H.
    rewrite Hens in H. exact H. }
  assert (Hstep : step =
    match must_fetch nocache (w_fs w_d) dirname with
    | inl strerror => (w_d, Raise (OSError strerror))
    | inr fetch =>
        (if fetch then fetch_certs key0 value dirname w_d else (w_d, Ok tt)) >>> (fun w2 =>
        lift_db w2 (_load_from_directory (w_fs w2) (w_db w2) dirname certificate))
    end).
  { unfold step, external_entry. fold dirname. unfold dirname at 1. rewrite Hens.
    reflexivity. }
  assert (Hcalls :
    (must_fetch nocache (w_fs w_d) dirname = inr true
       /\ w_calls step.1 = w_calls w_i ++ [key0])
    \/ (must_fetch nocache (w_fs w_d) dirname = inr false
        /\ w_calls step.1 = w_calls w_i
        /\ step = lift_db w_d (_load_from_directory (w_fs w_d) (w_db w_d) dirname certificate))).
  { rewrite Hstep. unfold must_fetch.
    destruct nocache.
    - left. split; [reflexivity|].
      rewrite then_load_calls, fetch_certs_calls, Hcd. reflexivity.
    - destruct Hcheck as [Hn | [l Hl]]; [discriminate|]. fold dirname in Hl.
      rewrite Hl. destruct l as [|x l].
      + left. split; [reflexivity|].
        rewrite then_load_calls, fetch_certs_calls, Hcd. reflexivity.
      + right. split; [reflexivity|]. simpl. auto. }
  split; [|split; [|split]].
  - destruct Hcalls as [[Hf Hc] | (Hf & Hc & _)].
    + split; [|intros _; exact Hc]. intros _.
      unfold must_fetch in Hf. destruct nocache; [auto|].
      destruct (listdir (w_fs w_d) dirname) as [e|[|x l]]; try discriminate. auto.
    + split.
      * intros Hc'. rewrite Hc in Hc'. exfalso. exact (calls_not_extended _ _ Hc').
      * unfold must_fetch in Hf. destruct nocache; [discriminate|].
        intros [Hn | Hl]; [discriminate|]. rewrite Hl in Hf. discriminate.
  - destruct Hcalls as [[Hf Hc] | (Hf & Hc & _)].
    + split.
      * intros Hc'. rewrite Hc in Hc'. symmetry in Hc'.
        exfalso. exact (calls_not_extended _ _ Hc').
      * unfold must_fetch in Hf. intros [-> (x & l & Hl)]. rewrite Hl in Hf. discriminate.
    + split; [|intros _; exact Hc]. intros _.
      unfold must_fetch in Hf. destruct nocache; [discriminate|].
      destruct (listdir (w_fs w_d) dirname) as [e|[|x l]]; try discriminate. eauto.
  - intros -> x l Hl. destruct Hcalls as [[Hf _] | (_ & _ & Hs)].
    + unfold must_fetch in Hf. rewrite Hl in Hf. discriminate.
    + split; [exact Hs|]. rewrite Hs. reflexivity.
  - unfold _load_certs_from_external. rewrite Hroot, for_each_app, Hpre. reflexivity.
Qed.

(** Without [nocache], when every connector of the map has a cache
    directory with entries, the whole call invokes no connector and leaves
    the file system as it was. *)
Lemma all_cached_no_connector (tmp : string) (entries : list (string * pyval)) (w : World) :
  (forall kv, kv ∈ entries ->
     exists x l, listdir (w_fs w) (os_path_join tmp kv.1) = inr (x :: l)) ->
  w_calls (for_each (external_entry false (PStr tmp)) w entries).1 = w_calls w
  /\ w_fs (for_each (external_entry false (PStr tmp)) w entries).1 = w_fs w.
Proof.
  revert w. induction entries as [|[k v] entries IH]; intros w Hall; simpl; [auto|].
  destruct (Hall (k, v)) as (x & l & Hl); [left|]. simpl in Hl.
  unfold ensure_dir. rewrite (listdir_exists _ _ _ Hl). simpl.
  unfold must_fetch. rewrite Hl. simpl.
  unfold _load_from_directory. rewrite Hl. simpl.
  match goal with |- context [for_each _ ?w' entries] => destruct (IH w') as [Hc Hf] end.
  - intros kv Hin. simpl. apply Hall. right. exact Hin.
  - rewrite Hc, Hf. auto.
Qed.

(** With [nocache], a call that returns normally has invoked the connector
    of every entry, in the order of the map. *)
Lemma nocache_all_connectors (tmp : pyval) (entries : list (string * pyval)) (w : World) :
  (for_each (external_entry true tmp) w entries).2 = Ok tt ->
  w_calls (for_each (external_entry true tmp) w entries).1 = w_calls w ++ map fst entries.
Proof.
  revert w. induction entries as [|[k v] entries IH]; intros w; simpl.
  - rewrite app_nil_r. reflexivity.
  - destruct tmp as [|tmp| | |]; simpl; try discriminate.
    pose proof (ensure_dir_calls (os_path_join tmp k) w) as He.
    destruct (ensure_dir (os_path_join tmp k) w) as [w1 [[]|e]]; simpl in *; [|discriminate].
    pose proof (then_load_calls (fetch_certs k v (os_path_join tmp k) w1) (os_path_join tmp k))
      as Hl.
    rewrite fetch_certs_calls in Hl.
    destruct (fetch_certs k v (os_path_join tmp k) w1 >>> _) as [w2 [[]|e]]; simpl in *;
      [|discriminate].
    intros Hok. rewrite (IH w2 Hok), Hl, He, <- app_assoc. reflexivity.
Qed.

End ConnectorCache.

Lemma connector_cache_bypass_witness :
  w_calls (external_entry (FS := Demo.mem_fs) (CN := Demo.one_connector) false (PStr "/tmp")
             (Samples.world_of Samples.cached_fs) ("Ldap", PStr "ldap://directory")).1
  = w_calls (Samples.world_of Samples.cached_fs).
Proof.
  destruct (connector_cache_bypass (FS := Demo.mem_fs) (CN := Demo.one_connector)
              false Samples.ldap_map "/tmp" [] [] "Ldap" (PStr "ldap://directory")
              (Samples.world_of Samples.cached_fs) (Samples.world_of Samples.cached_fs)
              (Samples.world_of Samples.cached_fs))
    as (_ & Hnot & _).
  - reflexivity.
  - reflexivity.
  - vm_compute. reflexivity.
  - right. exists ["zoe.cert"]. vm_compute. reflexivity.
  - apply Hnot. split; [reflexivity|].
    exists "zoe.cert", []. vm_compute. reflexivity.
Defined.

(** The three cases on the sample cache: entries and no [nocache], the
    connector is not invoked and the cached file is loaded; an empty cache
    directory, or [nocache], and the connector is invoked. *)
Example cache_cases :
  let run f nocache :=
    (_load_certs_from_external (FS := Demo.mem_fs) (CN := Demo.one_connector)
       (Samples.world_of f) Samples.ldap_map nocache).1 in
  (w_calls (run Samples.cached_fs false) = []
   /\ w_fs (run Samples.cached_fs false) = Samples.cached_fs
   /\ iddb (w_db (run Samples.cached_fs false))
      = {[ "zoe" := new_identity certificate "zoe" "/tmp/Ldap/zoe.cert" ]})
  /\ w_calls (run Samples.uncached_fs false) = ["Ldap"]
  /\ w_calls (run Samples.cached_fs true) = ["Ldap"].
Proof. repeat split; vm_compute; reflexivity. Qed.

(** With [verify_identity] called as the threads call it, an absent
    recipient is refused with the [CliArgumentError] of line 112, before
    the certificate parser or the crypto module is reached. *)
Example absent_recipient_with_results :
  verify_identity (FS := Demo.mem_fs) (CP := Demo.plain_crypto) Demo.empty_fs
    IdentityDB_init "alice" (PList [])
  = (IdentityDB_init,
     Raise (CliArgumentError "Error: Recipient 'alice' is not in the recipient database")).
Proof. reflexivity. Qed.

(** A key directory is matched against the characters of [".key"]: a file
    named [note] ends with ['e'] and is loaded as the key of [note]. *)
Example key_suffix_characters :
  ext_tuple (extensions key) = ["."; "k"; "e"; "y"]
  /\ iddb (_load_from_directory (FS := Demo.mem_fs) (Demo.dir_fs "/private" ["note"])
             IdentityDB_init "/private" key).1
     = {[ "note" := new_identity key "note" "/private/note" ]}.
Proof. split; vm_compute; reflexivity. Qed.
Example split_users : split "," "bob, alice" = ["bob"; " alice"].
Proof. reflexivity. Qed.

Example split_comma : split "," "," = [""; ""].
Proof. reflexivity. Qed.

Example split_empty : split "," "" = [""].
Proof. reflexivity. Qed.

Example strip_both : strip "  bob alice  " = "bob alice".
Proof. reflexivity. Qed.

Example endswith_crt : endswith "a.crt" ".crt" = true /\ endswith "a.crt" ".cert" = false.
Proof. split; reflexivity. Qed.

Example join_tmp : os_path_join "/tmp" "ldap" = "/tmp/ldap" /\ os_path_join "/tmp/" "ldap" = "/tmp/ldap".
Proof. split; reflexivity. Qed.

(** * Further properties of the identity database *)

(** ** What a directory load leaves *)

Lemma endswith_prefix s suffix :
  endswith s suffix = true <-> exists p, s = p ++ suffix.
Proof.
  split.
  - induction s as [|a s IH]; rewrite endswith_unfold.
    + destruct (String.eqb "" suffix) eqn:E; [|discriminate].
      apply String.eqb_eq in E. subst suffix. exists "". reflexivity.
    + destruct (String.eqb (String a s) suffix) eqn:E.
      * apply String.eqb_eq in E. subst suffix. exists "". reflexivity.
      * intros Hs. destruct (IH Hs) as [p ->]. exists (String a p). reflexivity.
  - intros [p ->]. apply endswith_app.
Qed.

Lemma selected_suffix ft fname :
  selected ft fname = true
  <-> exists stem suffix, suffix ∈ ext_tuple (extensions ft) /\ fname = stem ++ suffix.
Proof.
  unfold selected, endswith_any. rewrite existsb_exists. split.
  - intros (suffix & Hin & He). apply endswith_prefix in He as [stem ->].
    exists stem, suffix. split; [apply list_elem_of_In; exact Hin | reflexivity].
  - intros (stem & suffix & Hin & ->). exists suffix.
    split; [apply list_elem_of_In; exact Hin | apply endswith_app].
Qed.

(** X5.  The files a load selects: for certificates, the names that end
    with [.cert] or [.crt]; for keys, the names whose last character is one
    of the four characters of [".key"]. *)
Theorem selected_files (fname : string) :
  (selected certificate fname = true
     <-> exists stem, fname = stem ++ ".cert" \/ fname = stem ++ ".crt")
  /\ (selected key fname = true
        <-> exists stem, fname = stem ++ "." \/ fname = stem ++ "k"
                         \/ fname = stem ++ "e" \/ fname = stem ++ "y").
Proof.
  split; rewrite selected_suffix; simpl; split.
  - intros (stem & suffix & Hin & ->). exists stem.
    repeat (apply elem_of_cons in Hin as [-> | Hin]; [auto|]). inversion Hin.
  - intros (stem & [-> | ->]); exists stem; eexists; (split; [|reflexivity]).
    + left.
    + right; left.
  - intros (stem & suffix & Hin & ->). exists stem.
    repeat (apply elem_of_cons in Hin as [-> | Hin]; [auto|]). inversion Hin.
  - intros (stem & [-> | [-> | [-> | ->]]]); exists stem; eexists; (split; [|reflexivity]).
    + left.
    + right; left.
    + right; right; left.
    + right; right; right; left.
Qed.

Lemma load_entry_lookup path ft m x k :
  load_entry path ft m x !! k
  = if (selected ft x && String.eqb (uid_of_filename x) k)%bool
    then Some (upsert_path ft (os_path_join path x) k (m !! k))
    else m !! k.
Proof.
  unfold load_entry, selected.
  destruct (endswith_any x _); simpl; [|reflexivity].
  destruct (String.eqb (uid_of_filename x) k) eqn:E.
  - apply String.eqb_eq in E. subst k.
    destruct (m !! uid_of_filename x); simpl.
    + apply lookup_insert_eq.
    + rewrite uid_new. apply lookup_insert_eq.
  - apply String.eqb_neq in E.
    destruct (m !! uid_of_filename x); [|rewrite uid_new];
      rewrite lookup_insert_ne by exact E; reflexivity.
Qed.

Lemma upsert_twice ft p q k o :
  upsert_path ft p k (Some (upsert_path ft q k o)) = upsert_path ft p k o.
Proof. destruct o as [r|]; destruct ft; reflexivity. Qed.

Lemma upsert_swap ft p q k o :
  upsert_path ft p k (Some (upsert_path (other ft) q k o))
  = upsert_path (other ft) q k (Some (upsert_path ft p k o)).
Proof. destruct o as [r|]; destruct ft; reflexivity. Qed.

Lemma load_all_exact path ft names m k :
  fold_left (load_entry path ft) names m !! k
  = match last_match ft k names with
    | Some x => Some (upsert_path ft (os_path_join path x) k (m !! k))
    | None => m !! k
    end.
Proof.
  revert m. induction names as [|x names IH]; intros m; simpl; [reflexivity|].
  rewrite IH, load_entry_lookup.
  destruct (last_match ft k names) as [y|];
    destruct (selected ft x && String.eqb (uid_of_filename x) k)%bool;
    try reflexivity.
  rewrite upsert_twice. reflexivity.
Qed.

Lemma last_match_Some ft k names x :
  last_match ft k names = Some x ->
  x ∈ names /\ selected ft x = true /\ uid_of_filename x = k.
Proof.
  induction names as [|y names IH]; simpl; [discriminate|].
  destruct (last_match ft k names) as [z|].
  - intros [= ->]. destruct IH as (Hin & Hs & Hu); [reflexivity|].
    split; [right; exact Hin | auto].
  - destruct (selected ft y) eqn:Es; simpl; [|discriminate].
    destruct (String.eqb (uid_of_filename y) k) eqn:Eu; [|discriminate].
    intros [= ->]. apply String.eqb_eq in Eu. split; [left | auto].
Qed.

Lemma last_match_last ft pre x post :
  selected ft x = true ->
  (forall y, y ∈ post -> selected ft y = true -> uid_of_filename y ≠ uid_of_filename x) ->
  last_match ft (uid_of_filename x) (pre ++ x :: post)%list = Some x.
Proof.
  intros Hs Hpost.
  assert (Hp : last_match ft (uid_of_filename x) post = None).
  { induction post as [|y post IH]; simpl; [reflexivity|].
    rewrite IH by (intros z Hz; apply Hpost; right; exact Hz).
    destruct (selected ft y) eqn:Ey; simpl; [|reflexivity].
    destruct (String.eqb (uid_of_filename y) (uid_of_filename x)) eqn:E; [|reflexivity].
    apply String.eqb_eq in E. exfalso. apply (Hpost y); [left | exact Ey | exact E]. }
  induction pre as [|z pre IH]; simpl.
  - rewrite Hp, Hs, String.eqb_refl. reflexivity.
  - rewrite IH. reflexivity.
Qed.

Section DirectoryLoads.

Context `{FS : FileSystem}.

(** X1.  Last write wins.  When the directory can be listed, the record
    under the uid of a selected file, after the load, is the record that
    was under that uid before (or a new record with only the uid) with the
    path of the artifact type set to the path of the last selected file of
    the listing that has this uid; a key that is the uid of no selected file
    keeps what it had. *)
Theorem load_from_directory_last_wins (f : fs) (db : IdentityDB) (path : string)
    (ft : filetype) (pre post : list string) (x : string) :
  listdir f path = inr (pre ++ x :: post)%list ->
  selected ft x = true ->
  (forall y, y ∈ post -> selected ft y = true -> uid_of_filename y ≠ uid_of_filename x) ->
  iddb (_load_from_directory f db path ft).1 !! uid_of_filename x
    = Some (upsert_path ft (os_path_join path x) (uid_of_filename x)
              (iddb db !! uid_of_filename x))
  /\ forall k, (forall y, y ∈ (pre ++ x :: post)%list -> selected ft y = true ->
                          uid_of_filename y ≠ k) ->
               iddb (_load_from_directory f db path ft).1 !! k = iddb db !! k.
Proof.
  intros Hl Hs Hpost. unfold _load_from_directory. rewrite Hl. simpl. split.
  - rewrite load_all_exact, last_match_last by assumption. reflexivity.
  - intros k Hk. rewrite load_all_exact.
    destruct (last_match ft k (pre ++ x :: post)%list) as [y|] eqn:E; [|reflexivity].
    apply last_match_Some in E as (Hin & Hy & Hu).
    exfalso. exact (Hk y Hin Hy Hu).
Qed.

(** X2.  Loading the same directory a second time, for the same artifact
    type and with the listing unchanged, changes nothing: state and outcome
    are those of the first load. *)
Theorem load_from_directory_twice (f : fs) (db : IdentityDB) (path : string) (ft : filetype) :
  _load_from_directory f (_load_from_directory f db path ft).1 path ft
  = _load_from_directory f db path ft.
Proof.
  unfold _load_from_directory. destruct (listdir f path) as [e|names]; simpl; [reflexivity|].
  unfold set_iddb. simpl. do 2 f_equal. apply map_eq. intros k.
  rewrite !load_all_exact.
  destruct (last_match ft k names) as [x|]; [|reflexivity].
  rewrite upsert_twice. reflexivity.
Qed.

(** X3.  Loading a certificate directory and loading a key directory
    commute: when both directories can be listed, either order leaves the
    same database. *)
Theorem load_certificates_keys_commute (f : fs) (db : IdentityDB) (certs_dir keys_dir : string)
    (cert_names key_names : list string) :
  listdir f certs_dir = inr cert_names ->
  listdir f keys_dir = inr key_names ->
  (_load_from_directory f (_load_from_directory f db certs_dir certificate).1 keys_dir key).1
  = (_load_from_directory f (_load_from_directory f db keys_dir key).1
       certs_dir certificate).1.
Proof.
  intros Hc Hk. unfold _load_from_directory. rewrite !Hc, !Hk. simpl. rewrite ?Hc, ?Hk. simpl.
  unfold set_iddb. simpl. f_equal. apply map_eq. intros k.
  rewrite !load_all_exact.
  destruct (last_match key k key_names) as [x|];
    destruct (last_match certificate k cert_names) as [y|]; try reflexivity.
  f_equal. apply (upsert_swap key).
Qed.

(** X4.  A load creates records only for selected files: a key that is new
    after the load is the uid of a selected file of the listing, and its
    record holds that uid, the path of such a file, and nothing else.  When
    the directory cannot be listed, the load raises [FileOpenError] with the
    path and the reason, and leaves the database as it was. *)
Theorem load_from_directory_new_records (f : fs) (db : IdentityDB) (path : string)
    (ft : filetype) :
  (forall k r',
     iddb db !! k = None ->
     iddb (_load_from_directory f db path ft).1 !! k = Some r' ->
     exists names x,
       listdir f path = inr names /\ x ∈ names /\ selected ft x = true
       /\ uid_of_filename x = k
       /\ r' = new_identity ft k (os_path_join path x))
  /\ (forall reason, listdir f path = inl reason ->
        _load_from_directory f db path ft = (db, Raise (FileOpenError path reason))).
Proof.
  split.
  - intros k r' Hnone. unfold _load_from_directory.
    destruct (listdir f path) as [e|names]; simpl; [congruence|].
    rewrite load_all_exact, Hnone.
    destruct (last_match ft k names) as [x|] eqn:E; [|discriminate].
    intros [= <-]. apply last_match_Some in E as (Hin & Hs & Hu).
    exists names, x. auto.
  - intros reason Hl. unfold _load_from_directory. rewrite Hl. reflexivity.
Qed.

(** X6.  [load_keys_from_directory] does nothing, and raises nothing, for a
    path that is not a directory; when it raises, the path is a directory
    that cannot be listed, the exception is the [FileOpenError] of that
    path, and the database is as it was. *)
Theorem load_keys_outcome (f : fs) (db : IdentityDB) (path : string) :
  (isdir f path = false -> load_keys_from_directory f db path = (db, Ok tt))
  /\ (forall e, (load_keys_from_directory f db path).2 = Raise e ->
        isdir f path = true
        /\ (load_keys_from_directory f db path).1 = db
        /\ exists reason, listdir f path = inl reason /\ e = FileOpenError path reason).
Proof.
  unfold load_keys_from_directory, _load_from_directory. split.
  - intros ->. reflexivity.
  - intros e. destruct (isdir f path); [|discriminate].
    destruct (listdir f path) as [reason|names]; simpl; [|discriminate].
    intros [= <-]. eauto.
Qed.

End DirectoryLoads.

Lemma load_from_directory_last_wins_witness :
  iddb (_load_from_directory (FS := Demo.mem_fs) MoreSamples.johns_fs IdentityDB_init
          "/certs" certificate).1 !! uid_of_filename "john.cert"
  = Some (upsert_path certificate (os_path_join "/certs" "john.cert")
            (uid_of_filename "john.cert") (iddb IdentityDB_init !! uid_of_filename "john.cert")).
Proof.
  apply (load_from_directory_last_wins (FS := Demo.mem_fs) MoreSamples.johns_fs
           IdentityDB_init "/certs" certificate ["john.crt"; "jane.cert"] [] "john.cert").
  - reflexivity.
  - reflexivity.
  - intros y Hy. inversion Hy.
Defined.

Lemma load_certificates_keys_commute_witness :
  (_load_from_directory (FS := Demo.mem_fs) Samples.carol_fs
     (_load_from_directory (FS := Demo.mem_fs) Samples.carol_fs IdentityDB_init
        "/certs" certificate).1 "/private" key).1
  = (_load_from_directory (FS := Demo.mem_fs) Samples.carol_fs
       (_load_from_directory (FS := Demo.mem_fs) Samples.carol_fs IdentityDB_init
          "/private" key).1 "/certs" certificate).1.
Proof.
  apply (load_certificates_keys_commute (FS := Demo.mem_fs) Samples.carol_fs IdentityDB_init
           "/certs" "/private" ["carol.crt"] ["carol.key"]); reflexivity.
Defined.

Lemma load_from_directory_new_records_witness :
  exists names x,
    listdir (FileSystem := Demo.mem_fs) Samples.abc_fs "/certs" = inr names
    /\ x ∈ names /\ selected certificate x = true /\ uid_of_filename x = "a"
    /\ new_identity certificate "a" "/certs/a.crt"
       = new_identity certificate "a" (os_path_join "/certs" x).
Proof.
  apply (proj1 (load_from_directory_new_records (FS := Demo.mem_fs) Samples.abc_fs
                  IdentityDB_init "/certs" certificate)).
  - reflexivity.
  - vm_compute. reflexivity.
Defined.

Lemma load_keys_outcome_witness :
  load_keys_from_directory (FS := Demo.mem_fs) Samples.abc_fs IdentityDB_init "/nowhere"
  = (IdentityDB_init, Ok tt).
Proof.
  apply (proj1 (load_keys_outcome (FS := Demo.mem_fs) Samples.abc_fs IdentityDB_init
                  "/nowhere")).
  reflexivity.
Defined.

(** ** The upsert of a directory load *)

Lemma path_field_other_set ft q r :
  path_field ft (set_path_field (other ft) q r) = path_field ft r.
Proof. destruct ft; reflexivity. Qed.

Lemma path_field_upsert ft p k o : path_field ft (upsert_path ft p k o) = Some p.
Proof. destruct o; [apply path_field_set | apply path_field_new]. Qed.

(** C7.  [_load_from_directory] is an upsert on the records of the store.
    - It never deletes or replaces a record: a record that was in the
      database is still there under the same key, with its [uid], its path
      of the other artifact type, its [cabundle] and its [certs] unchanged,
      and still with a path of the loaded artifact type if it had one;
      every record stays stored under its own [uid], and the store's
      [cabundle] is not touched.
    - A file loaded for a uid that has a record overwrites the path of its
      artifact type on that record and nothing else: the record becomes the
      old record with that path set to the path of the last selected file
      of the listing with this uid.
    - A path loaded for a uid from one directory and a path of the other
      artifact type loaded for the same uid from another directory
      accumulate on one record, whether or not the uid had a record
      before. *)
Theorem load_from_directory_upsert `{FS : FileSystem} (f : fs) (db : IdentityDB)
    (path : string) (ft : filetype) :
  (forall k r, iddb db !! k = Some r ->
     exists r', iddb (_load_from_directory f db path ft).1 !! k = Some r'
                /\ uid r' = uid r
                /\ path_field (other ft) r' = path_field (other ft) r
                /\ id_cabundle r' = id_cabundle r
                /\ certs r' = certs r
                /\ (is_Some (path_field ft r) -> is_Some (path_field ft r')))
  /\ (keyed_by_uid (iddb db) -> keyed_by_uid (iddb (_load_from_directory f db path ft).1))
  /\ cabundle (_load_from_directory f db path ft).1 = cabundle db
  /\ (forall k r pre x post,
        iddb db !! k = Some r ->
        listdir f path = inr (pre ++ x :: post)%list ->
        selected ft x = true -> uid_of_filename x = k ->
        (forall y, y ∈ post -> selected ft y = true -> uid_of_filename y ≠ k) ->
        iddb (_load_from_directory f db path ft).1 !! k
        = Some (set_path_field ft (os_path_join path x) r))
  /\ (forall k path2 pre x post pre2 x2 post2,
        listdir f path = inr (pre ++ x :: post)%list ->
        selected ft x = true -> uid_of_filename x = k ->
        (forall y, y ∈ post -> selected ft y = true -> uid_of_filename y ≠ k) ->
        listdir f path2 = inr (pre2 ++ x2 :: post2)%list ->
        selected (other ft) x2 = true -> uid_of_filename x2 = k ->
        (forall y, y ∈ post2 -> selected (other ft) y = true -> uid_of_filename y ≠ k) ->
        exists r'',
          iddb (_load_from_directory f (_load_from_directory f db path ft).1
                  path2 (other ft)).1 !! k = Some r''
          /\ path_field ft r'' = Some (os_path_join path x)
          /\ path_field (other ft) r'' = Some (os_path_join path2 x2)
          /\ r'' = set_path_field (other ft) (os_path_join path2 x2)
                     (upsert_path ft (os_path_join path x) k (iddb db !! k))).
Proof.
  split; [|split; [|split; [|split]]].
  - intros k r Hk. unfold _load_from_directory.
    destruct (listdir f path) as [err|names]; simpl.
    + exists r. auto 10.
    + destruct (load_all_keeps path ft names _ _ _ Hk) as (r' & Hr' & Hs).
      exists r'. split; [exact Hr' | exact Hs].
  - unfold _load_from_directory. destruct (listdir f path); simpl;
      [auto | apply load_all_keyed].
  - unfold _load_from_directory. destruct (listdir f path); reflexivity.
  - intros k r pre x post Hk Hl Hs <- Hpost.
    unfold _load_from_directory. rewrite Hl. simpl.
    rewrite load_all_exact, last_match_last, Hk by assumption. reflexivity.
  - intros k path2 pre x post pre2 x2 post2 Hl Hs Hu Hpost Hl2 Hs2 Hu2 Hpost2.
    unfold _load_from_directory. rewrite Hl. simpl. rewrite Hl2. simpl.
    rewrite !load_all_exact.
    assert (H1 : last_match ft k (pre ++ x :: post)%list = Some x)
      by (subst k; apply last_match_last; assumption).
    assert (H2 : last_match (other ft) k (pre2 ++ x2 :: post2)%list = Some x2).
    { rewrite <- Hu2. apply last_match_last; [assumption|].
      rewrite Hu2. assumption. }
    rewrite H1, H2. simpl. eexists. split; [reflexivity|].
    split; [|split; [apply path_field_set | reflexivity]].
    rewrite path_field_other_set. apply path_field_upsert.
Qed.

(** The key of [carol] from [/private] and her certificate from [/certs]
    accumulate on one record. *)
Lemma load_from_directory_upsert_witness :
  exists r'',
    iddb (_load_from_directory (FS := Demo.mem_fs) Samples.carol_fs
            (_load_from_directory (FS := Demo.mem_fs) Samples.carol_fs IdentityDB_init
               "/private" key).1 "/certs" certificate).1 !! "carol" = Some r''
    /\ path_field key r'' = Some (os_path_join "/private" "carol.key")
    /\ path_field certificate r'' = Some (os_path_join "/certs" "carol.crt")
    /\ r'' = set_path_field certificate (os_path_join "/certs" "carol.crt")
               (upsert_path key (os_path_join "/private" "carol.key") "carol"
                  (iddb IdentityDB_init !! "carol")).
Proof.
  apply (proj2 (proj2 (proj2 (proj2
           (load_from_directory_upsert (FS := Demo.mem_fs) Samples.carol_fs IdentityDB_init
              "/private" key)))) "carol" "/certs" [] "carol.key" [] [] "carol.crt" []).
  - reflexivity.
  - reflexivity.
  - reflexivity.
  - intros y Hy. inversion Hy.
  - reflexivity.
  - reflexivity.
  - reflexivity.
  - intros y Hy. inversion Hy.
Defined.

(** ** What verification keeps and when it succeeds *)

Section VerificationMore.

Context `{FS : FileSystem} `{CP : CryptoProvider} `{CN : Connectors}.

Lemma verified_record_paths f bundle r r' :
  verified_record f bundle (Some r) = Some r' -> same_paths r r'.
Proof.
  intros Hv. unfold verified_record in Hv.
  destruct (certificate_path r) as [p|]; [destruct (parse_file f p)|];
    injection Hv as <-; repeat split.
Qed.

Lemma verified_record_some f bundle o :
  is_Some (verified_record f bundle o) <-> is_Some o.
Proof.
  destruct o as [r|]; simpl.
  - split; [eauto|]. intros _.
    destruct (certificate_path r) as [p|]; [destruct (parse_file f p)|]; eauto.
  - reflexivity.
Qed.

(** X7.  [verify_identity] changes neither which identities the store has,
    nor the [uid], certificate path or key path of any record, nor the
    store's [cabundle], whether it returns or raises; it touches no record
    but the one of its identity. *)
Theorem verify_identity_keeps_paths (f : fs) (db : IdentityDB) (identity : string)
    (results : pyval) (k : string) :
  cabundle (verify_identity f db identity results).1 = cabundle db
  /\ (is_Some (iddb (verify_identity f db identity results).1 !! k)
        <-> is_Some (iddb db !! k))
  /\ (forall r r', iddb db !! k = Some r ->
        iddb (verify_identity f db identity results).1 !! k = Some r' ->
        same_paths r r' /\ (k ≠ identity -> r' = r)).
Proof.
  split; [apply verify_identity_cabundle|].
  destruct (decide (k = identity)) as [->|Hne].
  - rewrite verify_identity_record. split; [apply verified_record_some|].
    intros r r' Hr. rewrite Hr. intros Hv.
    split; [exact (verified_record_paths _ _ _ _ Hv) | congruence].
  - rewrite verify_identity_other by exact Hne. split; [reflexivity|].
    intros r r' Hr. rewrite Hr. intros [= <-].
    split; [unfold same_paths; auto | reflexivity].
Qed.

(** X8.  [verify_identity] returns normally exactly when the identity is in
    the store, has a certificate path, and the file of that path can be
    parsed; its record then carries the store's [cabundle] and one
    [cert_dict] per block of the file, in the order of the file, each
    [verified] against the store's [cabundle]. *)
Theorem verify_identity_succeeds_iff (f : fs) (db : IdentityDB) (identity : string)
    (results : pyval) :
  ((verify_identity f db identity results).2 = Ok tt
     <-> exists r p blocks,
           iddb db !! identity = Some r /\ certificate_path r = Some p
           /\ parse_file f p = inr blocks)
  /\ (forall r p blocks,
        iddb db !! identity = Some r -> certificate_path r = Some p ->
        parse_file f p = inr blocks ->
        exists r',
          iddb (verify_identity f db identity results).1 !! identity = Some r'
          /\ id_cabundle r' = Some (cabundle db)
          /\ (map cert_bytes <$> certs r') = Some blocks
          /\ (map verified <$> certs r')
             = Some (map (fun c => pk_verify_chain c (cabundle db)) blocks)).
Proof.
  split.
  - rewrite verify_identity_outcome. unfold verify_outcome. split.
    + destruct (iddb db !! identity) as [r|]; [|discriminate].
      destruct (certificate_path r) as [p|] eqn:Ep; [|discriminate].
      destruct (parse_file f p) as [e|blocks] eqn:Ef; [discriminate|].
      intros _. exists r, p, blocks. auto.
    + intros (r & p & blocks & -> & -> & ->). reflexivity.
  - intros r p blocks Hr Hp Hb. rewrite verify_identity_record, Hr. simpl.
    rewrite Hp, Hb. eexists. split; [reflexivity|]. simpl.
    split; [reflexivity|]. rewrite !map_map. simpl.
    split; f_equal. apply map_id.
Qed.

(** X10.  After [load_certs_from_directory] with [verify_on_load], when its
    loading steps succeed, every identity of the store has a record with
    the store's [cabundle] and a [certs] list, and the store has the
    identities it had after loading, with their paths. *)
Theorem verify_on_load_record_shape (w : World) (certpath : option string)
    (connectmap : option (list (string * pyval))) (nocache : bool) (k : string) :
  (load_certs_from_directory w certpath false connectmap nocache).2 = Ok tt ->
  let loaded := w_db (load_certs_from_directory w certpath false connectmap nocache).1 in
  let verified_db := w_db (load_certs_from_directory w certpath true connectmap nocache).1 in
  (is_Some (iddb verified_db !! k) <-> is_Some (iddb loaded !! k))
  /\ forall r', iddb verified_db !! k = Some r' ->
       id_cabundle r' = Some (cabundle verified_db)
       /\ is_Some (certs r')
       /\ exists r, iddb loaded !! k = Some r /\ same_paths r r'.
Proof.
  unfold load_certs_from_directory.
  destruct (if nonempty_map connectmap then _ else _) as [w1 [[]|e]]; simpl;
    [|discriminate].
  destruct (if nonempty_str certpath then _ else _) as [w2 [[]|e]]; simpl;
    [|discriminate].
  intros _. rewrite verify_all_lookup, verify_all_cabundle.
  split; [apply verified_record_some|].
  intros r' Hr'. destruct (iddb (w_db w2) !! k) as [r|] eqn:Er; [|discriminate].
  pose proof (verified_record_paths _ _ _ _ Hr') as Hp.
  simpl in Hr'.
  destruct (certificate_path r) as [p|]; [destruct (parse_file (w_fs w2) p)|];
    injection Hr' as <-; simpl; eauto.
Qed.

Lemma keeps_identities_refl db : keeps_identities db db.
Proof. intros k r Hr. eauto. Qed.

Lemma keeps_identities_trans db1 db2 db3 :
  keeps_identities db1 db2 -> keeps_identities db2 db3 -> keeps_identities db1 db3.
Proof.
  intros H12 H23 k r Hr. destruct (H12 k r Hr) as (r2 & Hr2 & Hu2 & Hk2).
  destruct (H23 k r2 Hr2) as (r3 & Hr3 & Hu3 & Hk3).
  exists r3. split; [exact Hr3|]. split; congruence.
Qed.

Lemma load_certificates_keeps f db path :
  keeps_identities db (_load_from_directory f db path certificate).1.
Proof.
  intros k r Hr. unfold _load_from_directory.
  destruct (listdir f path) as [e|names]; simpl; [eauto|].
  destruct (load_all_keeps path certificate names _ _ _ Hr) as (r' & Hr' & Hu & Hk & _).
  eauto.
Qed.

Lemma verify_all_keeps f db : keeps_identities db (verify_all f db).
Proof.
  intros k r Hr. pose proof (verify_all_lookup f db k) as Hl. rewrite Hr in Hl.
  destruct (proj2 (verified_record_some f (cabundle db) (Some r))) as [r' Hr']; [eauto|].
  rewrite Hr' in Hl. apply verified_record_paths in Hr' as (Hu & _ & Hk). eauto.
Qed.

Lemma write_certs_db dirname found w :
  w_db (for_each (write_cert dirname) w found).1 = w_db w.
Proof.
  revert w. induction found as [|[name certlist] found IH]; intros w; simpl; [reflexivity|].
  destruct (write_text _ _ _); simpl; [reflexivity|].
  rewrite IH. reflexivity.
Qed.

Lemma external_entry_keeps nocache temp_dir w kv :
  keeps_identities (w_db w) (w_db (external_entry nocache temp_dir w kv).1).
Proof.
  destruct kv as [key0 value]. unfold external_entry.
  destruct temp_dir as [|tmp| | |]; try apply keeps_identities_refl.
  unfold ensure_dir.
  assert (Hstep : forall w1, w_db w1 = w_db w ->
    keeps_identities (w_db w)
      (w_db (match must_fetch nocache (w_fs w1) (os_path_join tmp key0) with
             | inl strerror => (w1, Raise (OSError strerror))
             | inr fetch =>
                 (if fetch then fetch_certs key0 value (os_path_join tmp key0) w1
                  else (w1, Ok tt)) >>> (fun w2 =>
                 lift_db w2 (_load_from_directory (w_fs w2) (w_db w2)
                               (os_path_join tmp key0) certificate))
             end).1)).
  { intros w1 Hw1. destruct (must_fetch _ _ _) as [e|fetch]; simpl.
    - rewrite Hw1. apply keeps_identities_refl.
    - assert (Hf : w_db (if fetch then fetch_certs key0 value (os_path_join tmp key0) w1
                         else (w1, Ok tt)).1 = w_db w).
      { destruct fetch; [|exact Hw1]. unfold fetch_certs.
        destruct (list_certificates _ _ _); [|exact Hw1].
        rewrite write_certs_db. exact Hw1. }
      destruct (if fetch then _ else _) as [w2 [[]|e]]; simpl in *.
      + rewrite <- Hf. apply load_certificates_keeps.
      + rewrite Hf. apply keeps_identities_refl. }
  destruct (path_exists _ _); unfold and_then at 1; [apply Hstep; reflexivity|].
  destruct (makedirs _ _) as [e|f']; [apply keeps_identities_refl|].
  apply (Hstep (set_fs f' w)). reflexivity.
Qed.

Lemma external_loop_keeps nocache temp_dir entries w :
  keeps_identities (w_db w) (w_db (for_each (external_entry nocache temp_dir) w entries).1).
Proof.
  revert w. induction entries as [|kv entries IH]; intros w; simpl.
  - apply keeps_identities_refl.
  - pose proof (external_entry_keeps nocache temp_dir w kv) as H1.
    destruct (external_entry nocache temp_dir w kv) as [w1 [[]|e]]; simpl in *.
    + eapply keeps_identities_trans; [exact H1 | apply IH].
    + exact H1.
Qed.

(** X11.  Whatever [load_certs_from_directory] does, and whether it returns
    or raises, it loses no identity: every identity the store had is still
    there, with its [uid] and its key path. *)
Theorem load_certs_keeps_identities (w : World) (certpath : option string)
    (verify_on_load : bool) (connectmap : option (list (string * pyval))) (nocache : bool)
    (k : string) (r : Identity) :
  iddb (w_db w) !! k = Some r ->
  exists r',
    iddb (w_db (load_certs_from_directory w certpath verify_on_load connectmap nocache).1) !! k
      = Some r'
    /\ uid r' = uid r /\ key_path r' = key_path r.
Proof.
  revert k r. change (keeps_identities (w_db w)
    (w_db (load_certs_from_directory w certpath verify_on_load connectmap nocache).1)).
  unfold load_certs_from_directory.
  assert (H1 : keeps_identities (w_db w)
                 (w_db (if nonempty_map connectmap
                        then _load_certs_from_external w (default [] connectmap) nocache
                        else (w, Ok tt)).1)).
  { destruct (nonempty_map connectmap); [|apply keeps_identities_refl].
    unfold _load_certs_from_external. destruct (cache_root _) as [temp_dir entries].
    apply external_loop_keeps. }
  destruct (if nonempty_map connectmap then _ else _) as [w1 [[]|e]]; simpl in *; [|exact H1].
  assert (H2 : keeps_identities (w_db w1)
                 (w_db (if nonempty_str certpath
                        then lift_db w1 (_load_from_directory (w_fs w1) (w_db w1)
                                           (default "" certpath) certificate)
                        else (w1, Ok tt)).1)).
  { destruct (nonempty_str certpath); [|apply keeps_identities_refl].
    simpl. apply load_certificates_keeps. }
  destruct (if nonempty_str certpath then _ else _) as [w2 [[]|e]]; simpl in *.
  - destruct verify_on_load; simpl.
    + eapply keeps_identities_trans; [exact H1|].
      eapply keeps_identities_trans; [exact H2 | apply verify_all_keeps].
    + eapply keeps_identities_trans; eassumption.
  - eapply keeps_identities_trans; eassumption.
Qed.

End VerificationMore.

Lemma verify_identity_succeeds_iff_witness :
  exists r',
    iddb (verify_identity (FS := Demo.mem_fs) (CP := Demo.plain_crypto) Samples.zoe_fs
            Samples.zoe_db "zoe" (PList [])).1 !! "zoe" = Some r'
    /\ id_cabundle r' = Some (cabundle Samples.zoe_db)
    /\ (map cert_bytes <$> certs r') = Some [Demo.bytes_of_string "PEM"]
    /\ (map verified <$> certs r')
       = Some (map (fun c => pk_verify_chain (CryptoProvider := Demo.plain_crypto) c
                               (cabundle Samples.zoe_db))
                 [Demo.bytes_of_string "PEM"]).
Proof.
  apply (proj2 (verify_identity_succeeds_iff (FS := Demo.mem_fs) (CP := Demo.plain_crypto)
                  Samples.zoe_fs Samples.zoe_db "zoe" (PList []))
           (new_identity certificate "zoe" "/certs/zoe.crt") "/certs/zoe.crt").
  - vm_compute. reflexivity.
  - reflexivity.
  - reflexivity.
Defined.

Lemma verify_on_load_record_shape_witness :
  is_Some (iddb (w_db (load_certs_from_directory (FS := Demo.mem_fs)
                         (CP := Demo.plain_crypto) (CN := Demo.one_connector)
                         Samples.keys_only_world None true None false).1) !! "carol")
  <-> is_Some (iddb (w_db (load_certs_from_directory (FS := Demo.mem_fs)
                             (CP := Demo.plain_crypto) (CN := Demo.one_connector)
                             Samples.keys_only_world None false None false).1) !! "carol").
Proof.
  apply (verify_on_load_record_shape (FS := Demo.mem_fs) (CP := Demo.plain_crypto)
           (CN := Demo.one_connector) Samples.keys_only_world None None false "carol").
  reflexivity.
Defined.

Lemma load_certs_keeps_identities_witness :
  exists r',
    iddb (w_db (load_certs_from_directory (FS := Demo.mem_fs) (CP := Demo.plain_crypto)
                  (CN := Demo.one_connector) Samples.keys_only_world (Some "/certs") true
                  None false).1) !! "carol" = Some r'
    /\ uid r' = uid (new_identity key "carol" "/private/carol.key")
    /\ key_path r' = key_path (new_identity key "carol" "/private/carol.key").
Proof.
  apply (load_certs_keeps_identities (FS := Demo.mem_fs) (CP := Demo.plain_crypto)
           (CN := Demo.one_connector) Samples.keys_only_world (Some "/certs") true None false
           "carol" (new_identity key "carol" "/private/carol.key")).
  vm_compute. reflexivity.
Defined.

(** X9.  The verification threads write disjoint records: run one after the
    other in any order of the store's identities, they leave the database
    that [verify_all] leaves. *)
Theorem verification_order_irrelevant `{FS : FileSystem} `{CP : CryptoProvider}
    (f : fs) (db : IdentityDB) (order : list string) :
  order ≡ₚ map fst (map_to_list (iddb db)) ->
  fold_left (thread_run f) order db = verify_all f db
  /\ forall k, iddb (verify_all f db) !! k = verified_record f (cabundle db) (iddb db !! k).
Proof.
  intros Hp. split; [apply verify_all_any_order; exact Hp | apply verify_all_lookup].
Qed.

Lemma verification_order_irrelevant_witness :
  fold_left (thread_run (FS := Demo.mem_fs) (CP := Demo.plain_crypto) MoreSamples.ab_fs)
    ["b"; "a"] MoreSamples.ab_db
  = verify_all (FS := Demo.mem_fs) (CP := Demo.plain_crypto) MoreSamples.ab_fs
      MoreSamples.ab_db.
Proof.
  apply (verification_order_irrelevant (FS := Demo.mem_fs) (CP := Demo.plain_crypto)
           MoreSamples.ab_fs MoreSamples.ab_db ["b"; "a"]).
  replace (map fst (map_to_list (iddb MoreSamples.ab_db))) with ["a"; "b"]
    by (vm_compute; reflexivity).
  apply perm_swap.
Defined.

(** ** The connector loop as a whole *)

Section ConnectorLoop.

Context `{FS : FileSystem} `{CN : Connectors}.

Local Open Scope list_scope.

Lemma all_cached_loop (tmp : string) (entries : list (string * pyval)) (w : World) :
  (forall kv, kv ∈ entries ->
     exists x l, listdir (w_fs w) (os_path_join tmp kv.1) = inr (x :: l)) ->
  for_each (external_entry false (PStr tmp)) w entries
  = (set_db (load_cache_directories (w_fs w) tmp entries (w_db w)) w, Ok tt).
Proof.
  revert w. induction entries as [|[k v] entries IH]; intros w Hall; simpl.
  - destruct w; reflexivity.
  - destruct (Hall (k, v)) as (x & l & Hl); [left|]. simpl in Hl.
    unfold ensure_dir. rewrite (listdir_exists _ _ _ Hl). simpl.
    unfold must_fetch. rewrite Hl. simpl.
    assert (Hok : (_load_from_directory (w_fs w) (w_db w) (os_path_join tmp k)
                     certificate).2 = Ok tt)
      by (unfold _load_from_directory; rewrite Hl; reflexivity).
    unfold lift_db. rewrite Hok. simpl.
    rewrite IH.
    + unfold load_cache_directories, set_db. simpl. reflexivity.
    + intros kv Hin. simpl. apply Hall. right. exact Hin.
Qed.

(** X12.  Without [nocache], when the cache directory of every entry of the
    iterated connect map has entries, [_load_certs_from_external] returns
    normally, invokes no connector, leaves the file system as it was, and
    leaves the database that loading the cache directories one after the
    other leaves. *)
Theorem load_external_all_cached (w : World) (connection_map : list (string * pyval))
    (tmp : string) (entries : list (string * pyval)) :
  cache_root connection_map = (PStr tmp, entries) ->
  (forall kv, kv ∈ entries ->
     exists x l, listdir (w_fs w) (os_path_join tmp kv.1) = inr (x :: l)) ->
  let r := _load_certs_from_external w connection_map false in
  r.2 = Ok tt
  /\ w_calls r.1 = w_calls w
  /\ w_fs r.1 = w_fs w
  /\ w_db r.1 = load_cache_directories (w_fs w) tmp entries (w_db w).
Proof.
  intros Hroot Hall. unfold _load_certs_from_external. rewrite Hroot.
  rewrite (all_cached_loop tmp entries w Hall). simpl. auto.
Qed.

Lemma del_not_in k (m : list (string * pyval)) : k ∉ map fst (del k m).
Proof.
  unfold del. intros Hin. apply list_elem_of_fmap in Hin as ([k' v] & -> & Hin).
  apply list_elem_of_filter in Hin as [Hne _]. simpl in Hne. congruence.
Qed.

Lemma del_other k (m : list (string * pyval)) kv :
  kv ∈ m -> kv.1 ≠ k -> kv ∈ del k m.
Proof. intros Hin Hne. unfold del. apply list_elem_of_filter. auto. Qed.

(** X13.  With [nocache], a call of [_load_certs_from_external] that returns
    normally has invoked the connector of every iterated entry, once each,
    in the order of the connect map.  The iterated entries are those of the
    connect map, without the entry [base_directory] when that has a true
    value; an entry [base_directory] with a false value (an empty string)
    is iterated, and so invoked as a connector, like the others. *)
Theorem load_external_nocache (w : World) (connection_map : list (string * pyval)) :
  (_load_certs_from_external w connection_map true).2 = Ok tt ->
  w_calls (_load_certs_from_external w connection_map true).1
    = (w_calls w ++ map fst (snd (cache_root connection_map)))
  /\ (forall v, assoc "base_directory" connection_map = Some v -> truthy v = true ->
        (cache_root connection_map).1 = v
        /\ ("base_directory" ∉ map fst (snd (cache_root connection_map)))
        /\ forall kv, kv ∈ connection_map -> kv.1 ≠ "base_directory" ->
                      kv ∈ (cache_root connection_map).2)
  /\ (forall v, assoc "base_directory" connection_map = Some v -> truthy v = false ->
        cache_root connection_map = (PStr gettempdir, connection_map)).
Proof.
  intros Hok. split; [|split].
  - unfold _load_certs_from_external in *.
    destruct (cache_root connection_map) as [temp_dir entries]. simpl.
    apply nocache_all_connectors. exact Hok.
  - intros v Hv Ht. unfold cache_root. rewrite Hv, Ht. simpl.
    split; [reflexivity|]. split; [apply del_not_in|]. intros kv. apply del_other.
  - intros v Hv Ht. unfold cache_root. rewrite Hv, Ht. reflexivity.
Qed.

End ConnectorLoop.

Lemma load_external_all_cached_witness :
  w_calls (_load_certs_from_external (FS := Demo.mem_fs) (CN := Demo.one_connector)
             (Samples.world_of Samples.cached_fs) Samples.ldap_map false).1
  = w_calls (Samples.world_of Samples.cached_fs).
Proof.
  destruct (load_external_all_cached (FS := Demo.mem_fs) (CN := Demo.one_connector)
              (Samples.world_of Samples.cached_fs) Samples.ldap_map "/tmp" Samples.ldap_map)
    as (_ & Hc & _).
  - reflexivity.
  - intros kv Hin. apply list_elem_of_singleton in Hin. subst kv.
    exists "zoe.cert", []. vm_compute. reflexivity.
  - exact Hc.
Defined.

Lemma load_external_nocache_witness :
  w_calls (_load_certs_from_external (FS := Demo.mem_fs) (CN := Demo.one_connector)
             (Samples.world_of Samples.cached_fs) Samples.ldap_map true).1
  = (w_calls (Samples.world_of Samples.cached_fs)
     ++ map fst (snd (cache_root (FS := Demo.mem_fs) Samples.ldap_map)))%list.
Proof.
  apply (load_external_nocache (FS := Demo.mem_fs) (CN := Demo.one_connector)
           (Samples.world_of Samples.cached_fs) Samples.ldap_map).
  vm_compute. reflexivity.
Defined.

(** * Further properties of the command *)

(** X15.  [_validate_combinatorial_args] leaves the command as it is and
    returns normally exactly when a certificate path is given, or both a
    connect string and a key path are given (given: in [self.args] with a
    value other than [None]).  Otherwise it raises [CliArgumentError],
    naming [certpath] and [connect] when neither of the two is given, and
    [certpath] and [keypath] when only the key path is missing. *)
Theorem validate_combinatorial_args_outcome (c : Command) :
  (_validate_combinatorial_args c).1 = c
  /\ ((_validate_combinatorial_args c).2 = Ok tt
        <-> configured c "certpath" = true
            \/ (configured c "connect" = true /\ configured c "keypath" = true))
  /\ (configured c "certpath" = false -> configured c "connect" = false ->
        (_validate_combinatorial_args c).2
        = Raise (CliArgumentError "'certpath' or 'connect' is required"))
  /\ (configured c "certpath" = false -> configured c "connect" = true ->
        configured c "keypath" = false ->
        (_validate_combinatorial_args c).2
        = Raise (CliArgumentError "'certpath' or 'keypath' is required")).
Proof.
  unfold _validate_combinatorial_args, args_list. cbn [for_each].
  unfold check_arg_set. cbn [any_given].
  destruct (configured c "certpath") eqn:E1, (configured c "connect") eqn:E2,
           (configured c "keypath") eqn:E3;
    simpl; rewrite ?E1, ?E2, ?E3; simpl;
    repeat split; intros; try discriminate; try reflexivity; auto;
    intuition discriminate.
Qed.

Lemma validate_combinatorial_args_outcome_witness :
  (_validate_combinatorial_args MoreSamples.connect_only).2 = Ok tt.
Proof.
  apply (proj1 (proj2 (validate_combinatorial_args_outcome MoreSamples.connect_only))).
  right. split; reflexivity.
Defined.

Lemma lstrip_id s : starts_with_space s = false -> lstrip s = s.
Proof.
  intros Hs. destruct (lstrip_step s) as [[_ H] | [H _]]; [exact H | congruence].
Qed.

Lemma rstrip_id s : ends_with_space s = false -> rstrip s = s.
Proof.
  induction s as [|a rest IH]; [reflexivity|].
  rewrite ends_with_space_unfold. intros H. apply orb_false_iff in H as [Hs Hr].
  rewrite rstrip_unfold, (IH Hr), Hs. reflexivity.
Qed.

(** [strip] leaves a string without surrounding whitespace as it is. *)
Lemma strip_trimmed_id s : trimmed s -> strip s = s.
Proof.
  intros [Hf Hl]. unfold strip. rewrite (lstrip_id s Hf). apply rstrip_id, Hl.
Qed.

Section RecipientsMore.

Context `{SI : SetIteration}.

(** X16.  Without a key [escrow_users] in [self.args],
    [_build_recipient_list] returns normally and changes nothing: the
    [KeyError] of its first statement is dropped by the handler, and neither
    the groups nor the users are read, nor is an empty entry refused. *)
Theorem build_recipient_list_without_escrow_key (c : Command) :
  args c !! "escrow_users" = None ->
  _build_recipient_list c = (c, Ok tt).
Proof.
  intros Hn. unfold _build_recipient_list, collect_recipients, add_escrow_users.
  rewrite Hn. reflexivity.
Qed.

(** X17.  Once the entries are collected, the recipient list that
    [_build_recipient_list] leaves holds exactly the stripped collected
    entries; the call raises [NullRecipientError] if some collected entry
    is empty after stripping, and returns normally if none is. *)
Theorem build_recipient_list_result (c c2 : Command) :
  collect_recipients c = (c2, Ok tt) ->
  (forall x, x ∈ recipient_list (_build_recipient_list c).1
             <-> exists y, y ∈ recipient_list c2 /\ x = strip y)
  /\ ((_build_recipient_list c).2 = Raise NullRecipientError
        <-> exists y, y ∈ recipient_list c2 /\ strip y = "")
  /\ ((_build_recipient_list c).2 = Ok tt
        <-> forall y, y ∈ recipient_list c2 -> strip y ≠ "").
Proof.
  intros Hc. rewrite (build_after_collect _ _ Hc). simpl.
  assert (Hmem : forall x, x ∈ map strip (set_list (recipient_list c2))
                           <-> exists y, y ∈ recipient_list c2 /\ x = strip y).
  { intros x. rewrite list_elem_of_fmap. split.
    - intros (y & -> & Hy). exists y. split; [apply set_list_elem; exact Hy | reflexivity].
    - intros (y & Hy & ->). exists y. split; [reflexivity | apply set_list_elem; exact Hy]. }
  split; [exact Hmem|].
  case_bool_decide as Hin; rewrite Hmem in Hin.
  - destruct Hin as (y & Hy & Hs). split; split; try discriminate; eauto.
    intros Hall. exfalso. apply (Hall y Hy). congruence.
  - split; split; try discriminate; auto.
    + intros (y & Hy & Hs). exfalso. apply Hin. eauto.
    + intros _ y Hy Hs. apply Hin. eauto.
Qed.

(** X18.  When the collected entries have no surrounding whitespace, the
    recipient list that [_build_recipient_list] leaves has no duplicate and
    holds exactly the collected entries. *)
Theorem build_recipient_list_of_trimmed (c c2 : Command) :
  collect_recipients c = (c2, Ok tt) ->
  Forall trimmed (recipient_list c2) ->
  NoDup (recipient_list (_build_recipient_list c).1)
  /\ forall x, x ∈ recipient_list (_build_recipient_list c).1 <-> x ∈ recipient_list c2.
Proof.
  intros Hc Ht. rewrite (build_after_collect _ _ Hc). simpl.
  assert (Hid : map strip (set_list (recipient_list c2)) = set_list (recipient_list c2)).
  { rewrite <- (map_id (set_list (recipient_list c2))) at 2.
    apply map_ext_in. intros x Hx. apply strip_trimmed_id.
    rewrite Forall_forall in Ht. apply Ht, set_list_elem, list_elem_of_In, Hx. }
  rewrite Hid. split; [apply set_list_NoDup | apply set_list_elem].
Qed.

End RecipientsMore.

(** X19.  The resolved recipients do not depend on the order of the
    collected entries, on their repetitions, or on the iteration order of
    the set: two runs whose collected entries are the same as sets leave
    recipient lists with the same elements and have the same outcome. *)
Theorem build_recipient_list_order_irrelevant (SI1 SI2 : SetIteration)
    (c1 c2 c1' c2' : Command) :
  collect_recipients c1 = (c1', Ok tt) ->
  collect_recipients c2 = (c2', Ok tt) ->
  (forall y, y ∈ recipient_list c1' <-> y ∈ recipient_list c2') ->
  (_build_recipient_list (SI := SI1) c1).2 = (_build_recipient_list (SI := SI2) c2).2
  /\ forall x, x ∈ recipient_list (_build_recipient_list (SI := SI1) c1).1
               <-> x ∈ recipient_list (_build_recipient_list (SI := SI2) c2).1.
Proof.
  intros H1 H2 Hsame.
  assert (Hmem : forall x, x ∈ map strip (set_list (SetIteration := SI1) (recipient_list c1'))
                   <-> x ∈ map strip (set_list (SetIteration := SI2) (recipient_list c2'))).
  { intros x. rewrite !list_elem_of_fmap. split; intros (y & -> & Hy); exists y;
      (split; [reflexivity|]).
    - apply (proj2 (set_list_elem (SetIteration := SI2) _ _)), Hsame.
      exact (proj1 (set_list_elem (SetIteration := SI1) _ _) Hy).
    - apply (proj2 (set_list_elem (SetIteration := SI1) _ _)), Hsame.
      exact (proj1 (set_list_elem (SetIteration := SI2) _ _) Hy). }
  rewrite (build_after_collect (SI := SI1) _ _ H1), (build_after_collect (SI := SI2) _ _ H2).
  simpl. split; [|exact Hmem].
  do 2 case_bool_decide; try reflexivity; exfalso; rewrite Hmem in *; tauto.
Qed.

Section ValidationMore.

Context `{FS : FileSystem} `{CP : CryptoProvider}.

(** X20.  [_validate_identities] never changes the command or its identity
    database, and it returns normally exactly when the recipient list is
    empty and the operator, [self.args['identity']], is a name of the
    identity database. *)
Theorem validate_identities_outcome (f : fs) (c : Command) :
  (_validate_identities f c).1 = c
  /\ ((_validate_identities f c).2 = Ok tt
        <-> recipient_list c = []
            /\ exists s, args c !! "identity" = Some (PStr s)
                         /\ is_Some (iddb (identities c) !! s)).
Proof.
  unfold _validate_identities.
  destruct (recipient_list c) as [|recipient rest] eqn:El; simpl.
  - unfold validate_operator.
    destruct (args c !! "identity") as [[|s| | |]|]; simpl;
      try (split; [reflexivity|]; split; [discriminate|];
           intros (_ & s' & Hs & _); discriminate).
    destruct (iddb (identities c) !! s) eqn:Es; simpl.
    + split; [reflexivity|]. split; [|reflexivity].
      intros _. split; [reflexivity|]. exists s. rewrite Es. eauto.
    + split; [reflexivity|]. split; [discriminate|].
      intros (_ & s' & [= <-] & Hs). rewrite Es in Hs. destruct Hs. discriminate.
  - split; [destruct c; reflexivity|]. split; [discriminate|]. intros [H _]. discriminate.
Qed.

End ValidationMore.

Lemma build_recipient_list_without_escrow_key_witness :
  _build_recipient_list (SI := Demo.first_occurrence) MoreSamples.no_escrow_key
  = (MoreSamples.no_escrow_key, Ok tt).
Proof.
  apply (build_recipient_list_without_escrow_key (SI := Demo.first_occurrence)
           MoreSamples.no_escrow_key).
  reflexivity.
Defined.

Lemma build_recipient_list_result_witness :
  (_build_recipient_list (SI := Demo.first_occurrence) Samples.only_comma).2
    = Raise NullRecipientError
  <-> exists y, y ∈ [""; ""] /\ strip y = "".
Proof.
  apply (build_recipient_list_result (SI := Demo.first_occurrence) Samples.only_comma
           (set_recipient_list [""; ""] Samples.only_comma)).
  vm_compute. reflexivity.
Defined.

Lemma build_recipient_list_of_trimmed_witness :
  NoDup (recipient_list
           (_build_recipient_list (SI := Demo.first_occurrence) MoreSamples.alice_bob_alice).1).
Proof.
  apply (build_recipient_list_of_trimmed (SI := Demo.first_occurrence)
           MoreSamples.alice_bob_alice
           (set_recipient_list ["carol"; "alice"; "bob"; "alice"] MoreSamples.alice_bob_alice)).
  - vm_compute. reflexivity.
  - simpl. repeat constructor.
Defined.

Lemma build_recipient_list_order_irrelevant_witness :
  (_build_recipient_list (SI := Demo.first_occurrence) MoreSamples.bob_alice).2
  = (_build_recipient_list (SI := Demo.first_occurrence) MoreSamples.alice_bob_alice).2.
Proof.
  apply (build_recipient_list_order_irrelevant Demo.first_occurrence Demo.first_occurrence
           MoreSamples.bob_alice MoreSamples.alice_bob_alice
           (set_recipient_list ["carol"; "bob"; "alice"] MoreSamples.bob_alice)
           (set_recipient_list ["carol"; "alice"; "bob"; "alice"] MoreSamples.alice_bob_alice)).
  - vm_compute. reflexivity.
  - vm_compute. reflexivity.
  - intros y. simpl. rewrite !elem_of_cons. rewrite !elem_of_nil. tauto.
Defined.

Lemma validate_identities_outcome_witness :
  (_validate_identities (FS := Demo.mem_fs) (CP := Demo.plain_crypto) Demo.empty_fs
     MoreSamples.op_known).2 = Ok tt.
Proof.
  apply (proj2 (validate_identities_outcome (FS := Demo.mem_fs) (CP := Demo.plain_crypto)
                  Demo.empty_fs MoreSamples.op_known)).
  split; [reflexivity|]. exists "op". split; [reflexivity|]. vm_compute. eauto.
Defined.

(** ** The start of [_run_command_setup] *)

Lemma store_cli_arg_lookup c key0 value k :
  args (store_cli_arg c key0 value) !! k
  = if decide (k = key0) then merged_value (args c !! key0) value else args c !! k.
Proof.
  unfold store_cli_arg.
  destruct (decide (k = key0)) as [->|Hne].
  - destruct (is_none value) eqn:Ev.
    + destruct value; try discriminate. cbn [negb orb merged_value].
      destruct (args c !! key0) as [o|] eqn:E.
      * rewrite bool_decide_eq_true_2 by eauto. cbn [negb]. exact E.
      * rewrite bool_decide_eq_false_2 by (intros [? ?]; discriminate). cbn [negb].
        apply lookup_insert_eq.
    + cbn [negb orb]. unfold set_args. cbn [args]. rewrite lookup_insert_eq.
      destruct value; try discriminate; reflexivity.
  - destruct (negb (is_none value) || _)%bool; [|reflexivity].
    unfold set_args. cbn [args]. apply lookup_insert_ne. congruence.
Qed.

Lemma store_cli_arg_rest c key0 value :
  recipient_list (store_cli_arg c key0 value) = recipient_list c
  /\ identities (store_cli_arg c key0 value) = identities c.
Proof. unfold store_cli_arg. destruct (_ || _)%bool; auto. Qed.

Section SetupStart.

Context `{PP : PathProbe}.

Lemma check_file_arg_state f c key0 : (check_file_arg f c key0).1 = c.
Proof.
  unfold check_file_arg. case_bool_decide; [|reflexivity].
  destruct (args c !! key0) as [v|]; [|reflexivity].
  destruct (exists_value f v) as [[]|e]; reflexivity.
Qed.

Lemma check_file_arg_ok f c key0 :
  (check_file_arg f c key0).2 = Ok tt -> key0 ∈ fles ->
  exists v, args c !! key0 = Some v /\ exists_value f v = Ok true.
Proof.
  unfold check_file_arg. intros Hok Hin. rewrite bool_decide_eq_true_2 in Hok by exact Hin.
  destruct (args c !! key0) as [v|]; [|discriminate].
  destruct (exists_value f v) as [[]|e] eqn:E; try discriminate. eauto.
Qed.

(** X21.  The merge of the command line into [self.args] (lines 83-87),
    when it returns normally and no key is given twice: a value of the
    command line other than [None] replaces what the key had; [None] leaves
    a key that had a value as it was, and gives the value [None] to a key
    that had none; the other keys, the recipient list and the identity
    database are untouched; and for [cabundle] and [pwstore], when the
    command line has the key, the merged value is a path that exists. *)
Theorem merge_cli_args_result (f : fs) (c c' : Command) (cli_args : list (string * pyval)) :
  merge_cli_args f c cli_args = (c', Ok tt) ->
  NoDup (map fst cli_args) ->
  (forall key0 value, (key0, value) ∈ cli_args ->
     args c' !! key0 = merged_value (args c !! key0) value)
  /\ (forall k, k ∉ map fst cli_args -> args c' !! k = args c !! k)
  /\ (forall key0 value, (key0, value) ∈ cli_args -> key0 ∈ fles ->
        exists v, args c' !! key0 = Some v /\ exists_value f v = Ok true)
  /\ recipient_list c' = recipient_list c
  /\ identities c' = identities c.
Proof.
  unfold merge_cli_args. revert c.
  induction cli_args as [|[key0 value] rest IH]; intros c Hrun Hnd.
  - injection Hrun as <-. repeat split; auto; intros ? ? Hin; inversion Hin.
  - simpl in Hrun, Hnd. apply NoDup_cons in Hnd as [Hkey Hnd].
    unfold merge_cli_arg in Hrun. simpl in Hrun.
    pose proof (check_file_arg_state f (store_cli_arg c key0 value) key0) as Hst.
    pose proof (check_file_arg_ok f (store_cli_arg c key0 value) key0) as Hck.
    destruct (check_file_arg f (store_cli_arg c key0 value) key0) as [c1 [[]|e]];
      simpl in *; [|discriminate]. subst c1.
    destruct (IH _ Hrun Hnd) as (Hval & Hother & Hfile & Hrl & Hid).
    destruct (store_cli_arg_rest c key0 value) as [Hrl1 Hid1].
    assert (Hhead : args c' !! key0 = merged_value (args c !! key0) value).
    { rewrite (Hother key0 Hkey), store_cli_arg_lookup.
      destruct (decide (key0 = key0)); [reflexivity | congruence]. }
    split; [|split; [|split; [|split; congruence]]].
    + intros k v Hin. apply elem_of_cons in Hin as [[= -> ->] | Hin]; [exact Hhead|].
      rewrite (Hval k v Hin), store_cli_arg_lookup.
      destruct (decide (k = key0)) as [->|Hne]; [|reflexivity].
      exfalso. apply Hkey. apply list_elem_of_fmap. exists (key0, v). auto.
    + intros k Hk. rewrite Hother, store_cli_arg_lookup.
      * destruct (decide (k = key0)) as [->|Hne]; [|reflexivity].
        exfalso. apply Hk. left.
      * intros Hin. apply Hk. right. exact Hin.
    + intros k v Hin Hf. apply elem_of_cons in Hin as [[= -> ->] | Hin].
      * destruct (Hck eq_refl Hf) as (v' & Hv' & He). exists v'. split; [|exact He].
        rewrite (Hother key0 Hkey). exact Hv'.
      * exact (Hfile k v Hin Hf).
Qed.

End SetupStart.

Lemma parse_group_membership_no_KeyError c e :
  _parse_group_membership c ≠ Raise (KeyError e).
Proof.
  unfold _parse_group_membership.
  destruct (match args c !! "groups" with Some g => _ | None => _ end) as [l|[]];
    discriminate.
Qed.

Lemma add_groups_appends c :
  (forall e, (add_groups c).2 ≠ Raise (KeyError e))
  /\ forall x, x ∈ recipient_list c -> x ∈ recipient_list (add_groups c).1.
Proof.
  unfold add_groups. destruct (configured c "groups"); [|split; [discriminate | auto]].
  pose proof (parse_group_membership_no_KeyError c) as Hp.
  destruct (_parse_group_membership c) as [members|e0]; simpl.
  - split; [discriminate|]. intros x Hx. apply elem_of_app. left. exact Hx.
  - split; [|auto]. intros e He. apply (Hp e). congruence.
Qed.

Lemma add_users_appends c :
  (forall e, (add_users c).2 ≠ Raise (KeyError e))
  /\ forall x, x ∈ recipient_list c -> x ∈ recipient_list (add_users c).1.
Proof.
  unfold add_users. destruct (configured c "users"); [|split; [discriminate | auto]].
  destruct (default PNone (args c !! "users")); simpl;
    try (split; [discriminate | solve [auto]]).
  split; [discriminate|]. intros x Hx. apply elem_of_app. left. exact Hx.
Qed.

(** X22.  After line 92 has returned normally, [escrow_users] is a list:
    the comma-separated parts of the string it was, or the empty list when
    it was [None] or empty.  The collecting steps of
    [_build_recipient_list] then raise no [KeyError], so its handler drops
    nothing, and once the entries are collected every escrow user,
    stripped, is in the recipient list. *)
Theorem split_escrow_users_then_build `{SI : SetIteration} (c c1 : Command) :
  split_escrow_users c = (c1, Ok tt) ->
  exists l,
    args c1 !! "escrow_users" = Some (PList l)
    /\ l = match args c !! "escrow_users" with
           | Some (PStr s) => if String.eqb s "" then [] else split "," s
           | _ => []
           end
    /\ (forall e, (collect_recipients c1).2 ≠ Raise (KeyError e))
    /\ (forall c2, collect_recipients c1 = (c2, Ok tt) ->
          forall x, x ∈ l -> strip x ∈ recipient_list (_build_recipient_list c1).1).
Proof.
  intros Hs. unfold split_escrow_users in Hs.
  destruct (args c !! "escrow_users") as [v|] eqn:Ev; [|discriminate].
  assert (Hl : exists l, c1 = set_args (<["escrow_users" := PList l]> (args c)) c
                 /\ l = match v with
                        | PStr s => if String.eqb s "" then [] else split "," s
                        | _ => []
                        end).
  { destruct v as [|s|z|b|l0]; simpl in Hs.
    - injection Hs as <-. eauto.
    - destruct (String.eqb s ""); simpl in Hs; injection Hs as <-; eauto.
    - destruct (negb (Z.eqb z 0)); [discriminate|]. injection Hs as <-. eauto.
    - destruct b; [discriminate|]. injection Hs as <-. eauto.
    - destruct l0; [|discriminate]. injection Hs as <-. eauto. }
  destruct Hl as (l & -> & Hl). exists l.
  set (c1 := set_args (<["escrow_users" := PList l]> (args c)) c).
  assert (Hesc : args c1 !! "escrow_users" = Some (PList l)) by apply lookup_insert_eq.
  split; [exact Hesc|]. split; [exact Hl|].
  assert (Hadd : add_escrow_users c1 = (set_recipient_list (recipient_list c1 ++ l) c1, Ok tt)).
  { unfold add_escrow_users. rewrite Hesc. reflexivity. }
  split.
  - intros e. unfold collect_recipients. rewrite Hadd. simpl.
    pose proof (add_groups_appends (set_recipient_list (recipient_list c1 ++ l) c1)) as [Hg _].
    destruct (add_groups _) as [cg [[]|eg]]; simpl in *; [|apply Hg].
    apply add_users_appends.
  - intros c2 Hc x Hx. rewrite (build_after_collect _ _ Hc). simpl.
    apply list_elem_of_fmap. exists x. split; [reflexivity|].
    apply set_list_elem.
    unfold collect_recipients in Hc. rewrite Hadd in Hc. simpl in Hc.
    pose proof (add_groups_appends (set_recipient_list (recipient_list c1 ++ l) c1)) as [_ Hg].
    destruct (add_groups _) as [cg [[]|eg]]; simpl in *; [|discriminate].
    pose proof (add_users_appends cg) as [_ Hu]. rewrite Hc in Hu. simpl in Hu.
    apply Hu, Hg, elem_of_app. right. exact Hx.
Qed.

Lemma merge_cli_args_result_witness :
  args (@merge_cli_args Demo.mem_fs Demo.strict_probe
          {| Demo.dirs := {[ "/certs" := []; "/private" := [] ]}; Demo.files := ∅ |}
          MoreSamples.configured_args MoreSamples.cli).1 !! "pwstore"
  = Some (PStr "/private").
Proof.
  destruct (merge_cli_args_result (PP := Demo.strict_probe)
              {| Demo.dirs := {[ "/certs" := []; "/private" := [] ]}; Demo.files := ∅ |}
              MoreSamples.configured_args
              (@merge_cli_args Demo.mem_fs Demo.strict_probe
                 {| Demo.dirs := {[ "/certs" := []; "/private" := [] ]}; Demo.files := ∅ |}
                 MoreSamples.configured_args MoreSamples.cli).1
              MoreSamples.cli) as (Hval & _).
  - vm_compute. reflexivity.
  - vm_compute. repeat constructor; intros Hin;
      repeat (apply elem_of_cons in Hin as [Hin|Hin]; [discriminate|]); inversion Hin.
  - rewrite (Hval "pwstore" (PStr "/private")); [reflexivity|].
    unfold MoreSamples.cli. right. left.
Defined.

Lemma split_escrow_users_then_build_witness :
  exists l,
    args (split_escrow_users MoreSamples.configured_args).1 !! "escrow_users" = Some (PList l)
    /\ l = ["carol"; " dave"].
Proof.
  destruct (split_escrow_users_then_build (SI := Demo.first_occurrence)
              MoreSamples.configured_args (split_escrow_users MoreSamples.configured_args).1)
    as (l & Hl & Heq & _).
  - vm_compute. reflexivity.
  - exists l. split; [exact Hl|]. rewrite Heq. vm_compute. reflexivity.
Defined.

(** Whitespace outside the ASCII range is stripped like the space, and the
    characters that share bytes with it are kept. *)
Example strip_unicode :
  strip ("team1" ++ Unicode.nbsp) = "team1"
  /\ strip (Unicode.em_space ++ " bob " ++ Unicode.nbsp ++ Unicode.em_space) = "bob"
  /\ strip Unicode.nbsp = ""
  /\ strip (Unicode.a_ring ++ Unicode.dagger) = Unicode.a_ring ++ Unicode.dagger
  /\ chars ("a" ++ Unicode.a_ring ++ Unicode.em_space) = ["a"; Unicode.a_ring; Unicode.em_space].
Proof. repeat split; vm_compute; reflexivity. Qed.

(** A group name and a member with such whitespace around them resolve to
    the group and the member; a user that is only such whitespace is
    refused. *)
Example unicode_whitespace_resolution :
  _build_recipient_list (SI := Demo.first_occurrence) Unicode.spaced_group
  = (set_recipient_list ["dave"] Unicode.spaced_group, Ok tt)
  /\ (_build_recipient_list (SI := Demo.first_occurrence) Unicode.nbsp_user).2
     = Raise NullRecipientError.
Proof. split; vm_compute; reflexivity. Qed.
